(** * bow_dbnl: a bag-of-words from a corpus of TEI-XML files

    A shallow embedding of [src/bow_dbnl.py] and the properties of its
    pipeline: file discovery ([get_files]), sampling ([pick_random]), text
    extraction ([extract_tei]), counting ([create_bow]) and reporting
    ([output_bow]).

    Modelling conventions.
    - A Python [str] is a list of Unicode code points ([pystr]); [len] is
      the length of that list.
    - A Python [int] is a [Z].
    - An [OrderedDict] is an association list in insertion order.
    - A call that may raise returns an [outcome]; an exception that nothing
      catches propagates through [≫=].
    - The [print] calls of the script (progress reporting) write to the
      terminal only and are left out. *)

From Stdlib Require Import ZArith NArith Ascii String DecimalString.
From Stdlib Require Import DecimalPos DecimalZ.
From stdpp Require Import base option list sorting.

Local Open Scope Z_scope.

(** ** Strings *)

Abbreviation pychar := N (only parsing).
Abbreviation pystr := (list N) (only parsing).

(** The string literals of the script, as code points. *)
Definition py (s : string) : pystr := N_of_ascii <$> list_ascii_of_string s.

(** [len(s)] *)
Definition len {A} (l : list A) : Z := Z.of_nat (length l).

(** [s.startswith(pat)] *)
Fixpoint startswith (pat s : pystr) : bool :=
  match pat, s with
  | [], _ => true
  | _ :: _, [] => false
  | p :: pat', c :: s' => (p =? c)%N && startswith pat' s'
  end.

(** [s.endswith(pat)] *)
Definition endswith (pat s : pystr) : bool :=
  startswith (reverse pat) (reverse s).

(** ** Exceptions *)

Inductive exn : Set :=
  | IndexError
  | FileNotFoundError
  | NotADirectoryError
  | PermissionError
  | UnicodeDecodeError.

Inductive outcome (A : Type) : Type :=
  | Ok (a : A)
  | Raised (e : exn).
Arguments Ok {A} a.
Arguments Raised {A} e.

Global Instance outcome_ret : MRet outcome := @Ok.
Global Instance outcome_bind : MBind outcome := λ A B f m,
  match m with
  | Ok a => f a
  | Raised e => Raised e
  end.

(** [l[i]] for a non-negative literal index. *)
Definition py_index {A} (l : list A) (i : nat) : outcome A :=
  match l !! i with
  | Some a => Ok a
  | None => Raised IndexError
  end.

(** [l[:k]]: a negative [k] counts from the end of the list. *)
Definition py_slice_to {A} (l : list A) (k : Z) : list A :=
  if k <? 0 then take (Z.to_nat (len l + k)) l else take (Z.to_nat k) l.

(** ** The frequency table *)

(** [OrderedDict]: keys in insertion order, each key once. *)
Abbreviation dict := (list (list N * Z)) (only parsing).

(** [d.get(word)] *)
Fixpoint dict_get (word : pystr) (d : dict) : option Z :=
  match d with
  | [] => None
  | (k, v) :: d' => if decide (k = word) then Some v else dict_get word d'
  end.

(** The two branches of lines 151-154: a word that is no key yet is added
    at the end with count 1, the count of a key is incremented in place. *)
Fixpoint dict_incr (word : pystr) (d : dict) : dict :=
  match d with
  | [] => [(word, 1)]
  | (k, v) :: d' =>
      if decide (k = word) then (k, v + 1) :: d' else (k, v) :: dict_incr word d'
  end.

(** [sorted(items, key=lambda x: x[1], reverse=True)]. Python's sort is
    stable, and [reverse=True] keeps the relative order of items with equal
    keys; the result of a stable sort does not depend on the algorithm, so
    it is given here as a stable insertion sort.  [sorted_insert x l] puts
    [x] in front of the first item whose count is not larger. *)
Fixpoint sorted_insert (x : list N * Z) (l : dict) : dict :=
  match l with
  | [] => [x]
  | y :: l' => if x.2 <? y.2 then y :: sorted_insert x l' else x :: l
  end.

Definition sorted_by_count (items : dict) : dict :=
  foldr sorted_insert [] items.

Section Counter.
(** [nltk.word_tokenize], an external collaborator. *)
Variable word_tokenize : pystr → list pystr.

(** The body of the inner loop, lines 150-154. *)
Definition count_word (d : dict) (word : pystr) : dict :=
  if 2 <? len word then dict_incr word d else d.

(** The body of the outer loop, lines 147-154. *)
Definition count_sentence (d : dict) (sen : pystr) : dict :=
  foldl count_word d (word_tokenize sen).

(** [dict_wordfreq] when the loops are over (line 157). *)
Definition dict_wordfreq (flat_text : list pystr) : dict :=
  foldl count_sentence [] flat_text.

Definition create_bow (flat_text : list pystr) : dict :=
  sorted_by_count (dict_wordfreq flat_text).
End Counter.

(** ** Regular expressions of the script

    The scanners below follow the regex engine: they walk the subject from
    left to right, and after a match at the current position they skip the
    characters the match has consumed ([skip]). All patterns of the script
    match at least one character. *)

(** [re.split(pat, s)] for a literal, non-empty [pat]; [cur] holds the
    characters of the current piece, last one first. *)
Fixpoint re_split_from (pat : pystr) (skip : nat) (cur s : pystr) : list pystr :=
  match s with
  | [] => [reverse cur]
  | c :: s' =>
      match skip with
      | S k => re_split_from pat k cur s'
      | O =>
          if startswith pat s
          then reverse cur :: re_split_from pat (length pat - 1) [] s'
          else re_split_from pat 0 (c :: cur) s'
      end
  end.

Definition re_split (pat s : pystr) : list pystr := re_split_from pat 0 [] s.

(** [re.sub(pat, repl, s)] for a literal, non-empty [pat]. *)
Fixpoint re_sub_from (pat repl : pystr) (skip : nat) (s : pystr) : pystr :=
  match s with
  | [] => []
  | c :: s' =>
      match skip with
      | S k => re_sub_from pat repl k s'
      | O =>
          if startswith pat s
          then repl ++ re_sub_from pat repl (length pat - 1) s'
          else c :: re_sub_from pat repl 0 s'
      end
  end.

Definition re_sub (pat repl s : pystr) : pystr := re_sub_from pat repl 0 s.

Definition chr_lt : pychar := 60%N.      (* '<' *)
Definition chr_gt : pychar := 62%N.      (* '>' *)
Definition chr_space : pychar := 32%N.   (* ' ' *)
Definition chr_newline : pychar := 10%N. (* '\n' *)
Definition chr_tab : pychar := 9%N.      (* '\t' *)

(** What [[^<]+>] consumes at the head of [s]: the greedy [[^<]+] runs up to
    the next ['<'] (or the end) and backtracks to the last ['>'] of that
    run that has a character before it. [i] counts the characters passed,
    [best] is the match length at the last such ['>']. *)
Fixpoint tag_extent_from (i : nat) (best : option nat) (s : pystr) : option nat :=
  match s with
  | [] => best
  | c :: s' =>
      if (c =? chr_lt)%N then best
      else tag_extent_from (S i)
             (if (c =? chr_gt)%N && (0 <? i)%nat then Some (S i) else best) s'
  end.

Definition tag_extent (s : pystr) : option nat := tag_extent_from 0 None s.

(** [re.sub(r'<[^<]+>', '', s)] *)
Fixpoint remove_tags_from (skip : nat) (s : pystr) : pystr :=
  match s with
  | [] => []
  | c :: s' =>
      match skip with
      | S k => remove_tags_from k s'
      | O =>
          if (c =? chr_lt)%N then
            match tag_extent s' with
            | Some n => remove_tags_from n s'
            | None => c :: remove_tags_from 0 s'
            end
          else c :: remove_tags_from 0 s'
      end
  end.

Definition remove_tags (s : pystr) : pystr := remove_tags_from 0 s.

(** [s.replace(old, new)] for single characters. *)
Definition replace_char (old new : pychar) (s : pystr) : pystr :=
  (λ c, if (c =? old)%N then new else c) <$> s.

Section Extractor.
(** The Unicode tables behind [str.lower], [\W] and [\s], and NLTK's
    sentence tokenizer, are external collaborators. *)
Variable lower : pystr → pystr.
Variable is_word : pychar → bool.
Variable is_space : pychar → bool.
Variable sent_tokenize : pystr → list pystr.
(** [open(tei_file, encoding='utf8').read()] *)
Variable read_text : pystr → outcome pystr.

(** [re.sub(r'\W', ' ', s)] *)
Definition sub_nonword (s : pystr) : pystr :=
  (λ c, if is_word c then c else chr_space) <$> s.

(** [re.sub(r'\s+', ' ', s)]; [in_run] tells that the previous character
    was whitespace, already replaced. *)
Fixpoint sub_spaces_from (in_run : bool) (s : pystr) : pystr :=
  match s with
  | [] => []
  | c :: s' =>
      if is_space c
      then (if in_run then sub_spaces_from true s'
            else chr_space :: sub_spaces_from true s')
      else c :: sub_spaces_from false s'
  end.

Definition sub_spaces (s : pystr) : pystr := sub_spaces_from false s.

(** Lines 126-129. *)
Definition clean_sentence (sen : pystr) : pystr :=
  sub_spaces
    (sub_nonword
       (re_sub (py "&amp;") [chr_space]
          (re_sub (py "&nbsp;") [chr_space] sen))).

(** [tei_body[1]] of lines 117 and 120. *)
Definition tei_body_1 (tei : pystr) : outcome pystr :=
  py_index (re_split (py "<body>") tei) 1.

(** The body of the loop over the files, lines 116-130, for the content
    [tei] of one file: the cleaned sentences it appends to [flat_text]. *)
Definition extract_tei_doc (tei : pystr) : outcome (list pystr) :=
  body ← tei_body_1 tei;
  let tei_ptxt_noxml := remove_tags (replace_char chr_newline chr_space body) in
  let txt_clean := sent_tokenize (lower tei_ptxt_noxml) in
  mret (clean_sentence <$> txt_clean).

Fixpoint extract_tei_from (flat_text : list pystr) (tei_files : list pystr)
  : outcome (list pystr) :=
  match tei_files with
  | [] => mret flat_text
  | tei_file :: rest =>
      tei ← read_text tei_file;
      sentences ← extract_tei_doc tei;
      extract_tei_from (flat_text ++ sentences) rest
  end.

Definition extract_tei (tei_files : list pystr) : outcome (list pystr) :=
  extract_tei_from [] tei_files.
End Extractor.

(** ** File discovery *)

(** The directory tree under the root: directories and regular files. A
    directory that cannot be listed has [readable = false]. Symbolic
    links are not part of the tree. *)
#[warnings="-register-all"]
Inductive fsnode : Type :=
  | File
  | Dir (readable : bool) (entries : list (list N * fsnode)).

Definition is_dir (n : fsnode) : bool :=
  match n with
  | Dir _ _ => true
  | File => false
  end.

(** [os.scandir(top)]; [None] is a path that does not exist. *)
Definition scandir (n : option fsnode) : outcome (list (pystr * fsnode)) :=
  match n with
  | None => Raised FileNotFoundError
  | Some File => Raised NotADirectoryError
  | Some (Dir false _) => Raised PermissionError
  | Some (Dir true entries) => Ok entries
  end.

(** [os.path.join(a, b)] on POSIX. *)
Definition os_path_join (a b : pystr) : pystr :=
  if startswith (py "/") b then b
  else if bool_decide (a = []) || endswith (py "/") a then a ++ b
  else a ++ py "/" ++ b.

(** [os.walk(top)] with its defaults ([topdown=True], [onerror=None]): the
    triples [(dirpath, dirnames, filenames)] in the order they are yielded.
    When [scandir] raises, [onerror=None] makes the walk ignore the error
    and yield nothing for that directory. *)
Fixpoint walk_dir (top : pystr) (n : fsnode) : list (pystr * list pystr * list pystr) :=
  match n with
  | Dir true entries =>
      (top, (filter (λ e, is_dir e.2) entries).*1,
            (filter (λ e, ¬ is_dir e.2) entries).*1)
      :: flat_map (λ e, if is_dir e.2
                        then walk_dir (os_path_join top e.1) e.2
                        else []) entries
  | _ => []
  end.

Definition os_walk (top : pystr) (root : option fsnode)
  : list (pystr * list pystr * list pystr) :=
  match scandir root, root with
  | Ok _, Some n => walk_dir top n
  | _, _ => []
  end.

(** Lines 80-88. *)
Definition get_files (path_batch : pystr) (root : option fsnode) : list pystr :=
  flat_map (λ '(path_dir, dirnames, filenames),
              os_path_join path_dir <$> filter (λ f, endswith (py ".xml") f) filenames)
           (os_walk path_batch root).

(** ** Sampler *)

Section Sampler.
Context {A : Type}.
(** The generator behind the [random] module: its state, and
    [_randbelow(n)], which draws a number below [n] and advances the
    state. *)
Variable G : Type.
Variable randbelow : nat → G → nat * G.

(** [x[i], x[j] = x[j], x[i]] *)
Definition swap (x : list A) (i j : nat) : outcome (list A) :=
  xj ← py_index x j;
  xi ← py_index x i;
  mret (<[j:=xi]> (<[i:=xj]> x)).

(** [random.shuffle(x)], as CPython defines it:
    [for i in reversed(range(1, len(x))): j = randbelow(i + 1); swap].
    [shuffle_from i] runs the iterations [i, i-1, ..., 1]. *)
Fixpoint shuffle_from (i : nat) (x : list A) (g : G) : outcome (list A * G) :=
  match i with
  | O => mret (x, g)
  | S i' =>
      let '(j, g') := randbelow (S i) g in
      x' ← swap x i j;
      shuffle_from i' x' g'
  end.

Definition shuffle (x : list A) (g : G) : outcome (list A * G) :=
  shuffle_from (length x - 1) x g.

(** The state after a call of [pick_random]: the list it returns, the
    list object [tei_files] of the caller, which [random.shuffle] has
    permuted in place, and the generator. *)
Record sampled : Type := Sampled {
  returned : list A;
  tei_files_after : list A;
  generator_after : G;
}.

Definition pick_random (tei_files : list A) (DOCS_USED : Z) (g : G)
  : outcome sampled :=
  let DOCS_USED :=
    if (DOCS_USED <=? 0) || (len tei_files <? DOCS_USED)
    then len tei_files else DOCS_USED in
  '(shuffled, g') ← shuffle tei_files g;
  mret (Sampled (py_slice_to shuffled DOCS_USED) shuffled g').
End Sampler.
Arguments sampled : clear implicits.
Arguments Sampled {A G} _ _ _.
Arguments returned {A G} _.
Arguments tei_files_after {A G} _.
Arguments generator_after {A G} _.

(** ** Reporter *)

(** [str(n)] *)
Definition str_of_int (n : Z) : pystr := py (NilZero.string_of_int (Z.to_int n)).

(** The f-string of line 176. *)
Definition format_line (word : pystr) (count : Z) : pystr :=
  word ++ [chr_tab] ++ str_of_int count ++ [chr_newline].

(** [output_bow]: the strings handed to [outputf.write], in order, once
    [open(OUTPUT_TXT, 'w')] has opened the file (it is opened for writing,
    so they are all of its content). Whether the file can be opened lies
    with the file system and is not part of the model. *)
Definition output_bow (dict_sorted : dict) (BOW_LENGTH : Z) : outcome (list pystr) :=
  let BOW_LENGTH :=
    if (BOW_LENGTH <=? 0) || (len dict_sorted <? BOW_LENGTH)
    then len dict_sorted else BOW_LENGTH in
  mapM (λ i,
          word ← py_index dict_sorted.*1 i;
          count ← py_index dict_sorted.*2 i;
          mret (format_line word count))
       (seq 0 (Z.to_nat BOW_LENGTH)).

(** ** The script *)

Definition BOW_LENGTH : Z := 50000.
Definition DOCS_USED : Z := 3000.

Section Main.
Variable lower : pystr → pystr.
Variable is_word : pychar → bool.
Variable is_space : pychar → bool.
Variable sent_tokenize : pystr → list pystr.
Variable word_tokenize : pystr → list pystr.
Variable read_text : pystr → outcome pystr.
Variable G : Type.
Variable randbelow : nat → G → nat * G.

(** Lines 189-196: [path_batch] is [sys.argv[1]], [root] what the file
    system holds at that path, [seeded] the generator after
    [random.seed(4)]. The result is what is written to the output file
    once the reporter has opened it. *)
Definition main (path_batch : pystr) (root : option fsnode) (seeded : G)
  : outcome (list pystr) :=
  let tei_files := get_files path_batch root in
  picked ← pick_random G randbelow tei_files DOCS_USED seeded;
  let tei_files := returned picked in
  flat_text ← extract_tei lower is_word is_space sent_tokenize read_text tei_files;
  let dict_sorted := create_bow word_tokenize flat_text in
  output_bow dict_sorted BOW_LENGTH.
End Main.

(** ** Notions the properties are stated with *)

(** [pat in s]: the literal [pat] occurs in [s]. *)
Fixpoint py_in (pat s : pystr) : bool :=
  match s with
  | [] => startswith pat []
  | _ :: s' => startswith pat s || py_in pat s'
  end.

(** The tokenized occurrences of [w] in a sentence, and their sum over all
    sentences. *)
Definition occurrences (word_tokenize : pystr → list pystr) (w sen : pystr) : nat :=
  length (filter (λ t, t = w) (word_tokenize sen)).

Definition total_occurrences (word_tokenize : pystr → list pystr)
    (w : pystr) (flat_text : list pystr) : nat :=
  sum_list_with (occurrences word_tokenize w) flat_text.

(** The stream of words the counting stage goes through. *)
Definition word_stream (word_tokenize : pystr → list pystr)
    (flat_text : list pystr) : list pystr :=
  flat_text ≫= word_tokenize.

(** The distinct elements of a list, in the order of their first
    occurrences. *)
Fixpoint first_occurrences (l : list pystr) : list pystr :=
  match l with
  | [] => []
  | x :: l' => x :: filter (λ y, y ≠ x) (first_occurrences l')
  end.

(** What adding [n] occurrences does to the entry of a word. *)
Definition entry_add (o : option Z) (n : nat) : option Z :=
  match n with
  | O => o
  | S _ => Some (default 0 o + Z.of_nat n)
  end.

(** The number of words of [ws] that the loop counts as [w]. *)
Definition counted (w : pystr) (ws : list pystr) : nat :=
  if 2 <? len w then length (filter (λ t, t = w) ws) else O.

(** The order of a table sorted by count, highest first. *)
Definition count_ge (p q : list N * Z) : Prop := q.2 ≤ p.2.

(** The line written for an item of the table. *)
Definition item_line (p : list N * Z) : list N := format_line p.1 p.2.

(** The number of lines [output_bow] is to write. *)
Definition effective_length (size N : Z) : Z :=
  if 0 <? N then Z.min size N else size.

(** The content of the file: the strings written, one after the other. *)
Definition file_text (writes : list (list N)) : list N := concat writes.

(** The lines of a text, as reading it line by line gives them, without
    their newlines: the pieces that a newline ends and, when the text does
    not end with a newline, what follows the last one. [cur] holds the
    characters of the current line, last one first. *)
Fixpoint text_lines_from (cur text : list N) : list (list N) :=
  match text with
  | [] => match cur with [] => [] | _ => [reverse cur] end
  | c :: text' =>
      if (c =? chr_newline)%N
      then reverse cur :: text_lines_from [] text'
      else text_lines_from (c :: cur) text'
  end.

Definition text_lines (text : list N) : list (list N) := text_lines_from [] text.

(** Counts from the first line to the last never go up. *)
Definition non_increasing (rows : dict) : Prop :=
  ∀ i j p q, (i ≤ j)%nat → rows !! i = Some p → rows !! j = Some q → q.2 ≤ p.2.

(** ** Sample collaborators

    Plain ASCII stand-ins for the external collaborators, to run the
    pipeline on concrete inputs. *)

Definition sample_lower (s : pystr) : pystr :=
  (λ c, if (65 <=? c)%N && (c <=? 90)%N then (c + 32)%N else c) <$> s.

Definition sample_is_word (c : pychar) : bool :=
  ((48 <=? c)%N && (c <=? 57)%N) || ((65 <=? c)%N && (c <=? 90)%N)
  || ((97 <=? c)%N && (c <=? 122)%N) || (c =? 95)%N.

Definition sample_is_space (c : pychar) : bool :=
  (c =? 32)%N || ((9 <=? c)%N && (c <=? 13)%N).

(** Pieces of [s] ending at each character that satisfies [stop], empty
    pieces dropped; [cur] as in [re_split_from]. *)
Fixpoint sample_pieces (stop : pychar → bool) (keep : bool) (cur s : pystr)
  : list pystr :=
  match s with
  | [] => match cur with [] => [] | _ => [reverse cur] end
  | c :: s' =>
      if stop c then
        match (if keep then c :: cur else cur) with
        | [] => sample_pieces stop keep [] s'
        | piece => reverse piece :: sample_pieces stop keep [] s'
        end
      else sample_pieces stop keep (c :: cur) s'
  end.

(** A sentence ends at every full stop. *)
Definition sample_sent_tokenize (s : pystr) : list pystr :=
  sample_pieces (λ c, (c =? 46)%N) true [] s.

(** Words are separated by spaces. *)
Definition sample_word_tokenize (s : pystr) : list pystr :=
  sample_pieces sample_is_space false [] s.

(** A linear congruential generator; [sample_randbelow n] is below [n]
    whenever [n] is positive. *)
Definition sample_randbelow (n : nat) (g : N) : nat * N :=
  (N.to_nat (g mod N.of_nat n), ((1103515245 * g + 12345) mod 2147483648)%N).

(** Two documents under [corpus/], as in the scenario of the
    specification, and one without a body marker. *)
Definition sample_root : fsnode :=
  Dir true [(py "a.xml", File); (py "notes.txt", File);
            (py "sub", Dir true [(py "b.xml", File)]);
            (py "locked", Dir false [(py "c.xml", File)])].

Definition sample_read_text (path : pystr) : outcome pystr :=
  if bool_decide (path = py "corpus/a.xml")
  then Ok (py "<TEI><head>x</head><body>The cat sat. The cat ran.</body></TEI>")
  else if bool_decide (path = py "corpus/sub/b.xml")
  then Ok (py "<TEI><body><p>A dog ran fast.</p></body></TEI>")
  else if bool_decide (path = py "corpus/nobody.xml")
  then Ok (py "<TEI><text>no marker here</text></TEI>")
  else if bool_decide (path = py "corpus/twice.xml")
  then Ok (py "<TEI><body>one cat.<body>two dogs.</body></TEI>")
  else Raised FileNotFoundError.

(** ** Notions of the further properties *)

Definition chr_slash : pychar := 47%N.   (* '/' *)

(** The entry names [os.scandir] reports in a tree: none is empty, none
    holds a ['/'], and no two entries of one directory have the same
    name. *)
Fixpoint names_ok (n : fsnode) : bool :=
  match n with
  | File => true
  | Dir _ entries =>
      bool_decide (NoDup entries.*1)
      && forallb (λ e, negb (bool_decide (e.1 = []))
                       && negb (bool_decide (chr_slash ∈ e.1))
                       && names_ok e.2) entries
  end.

(** The [.xml] files of one directory listing. *)
Definition xml_names (entries : list (list N * fsnode)) : list (list N) :=
  filter (λ f, endswith (py ".xml") f) (filter (λ e, ¬ is_dir e.2) entries).*1.

(** The sum of the counts of a table. *)
Definition total_count (d : list (list N * Z)) : Z :=
  foldr (λ p acc, p.2 + acc) 0 d.

(** The count of a word in a table, 0 for a word without an entry. *)
Definition count_of (w : list N) (d : list (list N * Z)) : Z :=
  default 0 (dict_get w d).

(** A ['>'] occurs in [s] before the first ['<']. *)
Fixpoint gt_before_lt (s : pystr) : bool :=
  match s with
  | [] => false
  | c :: s' =>
      if (c =? chr_lt)%N then false
      else if (c =? chr_gt)%N then true
      else gt_before_lt s'
  end.

(** * Properties *)

(** ** The outcome monad *)

Lemma bind_Ok {A B} (f : A → outcome B) (a : A) : Ok a ≫= f = f a.
Proof. reflexivity. Qed.

Lemma bind_Raised {A B} (f : A → outcome B) (e : exn) : Raised e ≫= f = Raised e.
Proof. reflexivity. Qed.

Lemma py_index_lookup {A} (l : list A) (i : nat) (a : A) :
  l !! i = Some a → py_index l i = Ok a.
Proof. unfold py_index. by intros ->. Qed.

Lemma py_index_out_of_range {A} (l : list A) (i : nat) :
  (length l ≤ i)%nat → py_index l i = Raised IndexError.
Proof. intros H. unfold py_index. by rewrite lookup_ge_None_2. Qed.

(** ** The frequency table *)

Lemma dict_get_Some_elem_of (w : pystr) (v : Z) (d : dict) :
  dict_get w d = Some v → (w, v) ∈ d.
Proof.
  induction d as [|[k u] d IH]; simpl; [done|].
  case_decide as Hk.
  - intros [= ->]. subst k. left.
  - intros H. right. auto.
Qed.

Lemma dict_get_None (w : pystr) (d : dict) :
  dict_get w d = None ↔ w ∉ d.*1.
Proof.
  induction d as [|[k u] d IH]; simpl.
  - split; [intros _; apply not_elem_of_nil | done].
  - rewrite not_elem_of_cons. case_decide as Hk; split.
    + done.
    + intros [Hne _]. by subst.
    + intros H. split; [congruence | by apply IH].
    + intros [_ H]. by apply IH.
Qed.

Lemma elem_of_dict_get (w : pystr) (v : Z) (d : dict) :
  NoDup d.*1 → (w, v) ∈ d → dict_get w d = Some v.
Proof.
  induction d as [|[k u] d IH]; simpl.
  - intros _ H. by apply elem_of_nil in H.
  - rewrite NoDup_cons. intros [Hk Hd]. rewrite elem_of_cons.
    intros [[= -> ->]|Hin].
    + by rewrite decide_True.
    + rewrite decide_False; [by apply IH|].
      intros ->. apply Hk. apply list_elem_of_fmap. by exists (w, v).
Qed.

Lemma dict_get_incr_same (w : pystr) (d : dict) :
  dict_get w (dict_incr w d) = Some (default 0 (dict_get w d) + 1).
Proof.
  induction d as [|[k u] d IH]; simpl.
  - by rewrite decide_True.
  - case_decide as Hk; simpl.
    + by rewrite decide_True.
    + by rewrite decide_False.
Qed.

Lemma dict_get_incr_other (w w' : pystr) (d : dict) :
  w ≠ w' → dict_get w (dict_incr w' d) = dict_get w d.
Proof.
  intros Hne. induction d as [|[k u] d IH]; simpl.
  - by rewrite decide_False by congruence.
  - case_decide as Hk; simpl.
    + subst k. by rewrite !decide_False by congruence.
    + by rewrite IH.
Qed.

(** The keys after [dict_incr]: a new word goes to the end, a known one
    leaves the order alone. *)
Lemma dict_incr_keys (w : pystr) (d : dict) :
  (dict_incr w d).*1 = if decide (w ∈ d.*1) then d.*1 else d.*1 ++ [w].
Proof.
  induction d as [|[k u] d IH]; [done|].
  cbn [dict_incr]. rewrite (fmap_cons fst (k, u) d). cbn [fst].
  destruct (decide (k = w)) as [->|Hk].
  - by rewrite decide_True by left.
  - rewrite fmap_cons, IH. cbn [fst].
    destruct (decide (w ∈ d.*1)) as [Hin|Hin].
    + by rewrite decide_True by (by right).
    + rewrite decide_False; [done|].
      rewrite not_elem_of_cons. split; [congruence | done].
Qed.

Lemma dict_incr_NoDup (w : pystr) (d : dict) :
  NoDup d.*1 → NoDup (dict_incr w d).*1.
Proof.
  intros Hd. rewrite dict_incr_keys. case_decide as Hin; [done|].
  apply NoDup_app. split_and!; [done | | apply NoDup_singleton].
  intros x Hx Hx'. apply list_elem_of_singleton in Hx'. by subst.
Qed.

Lemma entry_add_add (o : option Z) (n m : nat) :
  entry_add (entry_add o n) m = entry_add o (n + m).
Proof.
  destruct n as [|n], m as [|m]; simpl; try done.
  - by rewrite Nat.add_0_r.
  - f_equal. lia.
Qed.

Section CounterFacts.
Context (word_tokenize : pystr → list pystr).

Local Abbreviation long w := (2 <? len w).

Lemma counted_app (w : pystr) (ws ws' : list pystr) :
  counted w (ws ++ ws') = (counted w ws + counted w ws')%nat.
Proof.
  unfold counted. destruct (long w); [|done].
  by rewrite filter_app, length_app.
Qed.

Lemma count_word_get (w t : pystr) (d : dict) :
  dict_get w (count_word d t) = entry_add (dict_get w d) (counted w [t]).
Proof.
  unfold count_word, counted. destruct (decide (t = w)) as [->|Hne].
  - destruct (long w); [|done].
    rewrite filter_cons_True by done. simpl.
    by rewrite dict_get_incr_same.
  - rewrite filter_cons_False by done. simpl.
    replace (if long w then O else O) with O by (by destruct (long w)).
    destruct (long t); [|done].
    by rewrite dict_get_incr_other.
Qed.

Lemma count_words_get (w : pystr) (ws : list pystr) (d : dict) :
  dict_get w (foldl count_word d ws) = entry_add (dict_get w d) (counted w ws).
Proof.
  revert d. induction ws as [|t ws IH]; intros d.
  - unfold counted. by destruct (long w).
  - simpl. rewrite IH, count_word_get, entry_add_add.
    by rewrite <- counted_app.
Qed.

Lemma count_word_NoDup (t : pystr) (d : dict) :
  NoDup d.*1 → NoDup (count_word d t).*1.
Proof.
  intros Hd. unfold count_word. destruct (long t); [|done].
  by apply dict_incr_NoDup.
Qed.

Lemma count_words_NoDup (ws : list pystr) (d : dict) :
  NoDup d.*1 → NoDup (foldl count_word d ws).*1.
Proof.
  revert d. induction ws as [|t ws IH]; intros d Hd; [done|].
  simpl. by apply IH, count_word_NoDup.
Qed.

(** The nested loops go through the word stream once. *)
Lemma count_sentences_stream (flat_text : list pystr) (d : dict) :
  foldl (count_sentence word_tokenize) d flat_text
  = foldl count_word d (word_stream word_tokenize flat_text).
Proof.
  revert d. induction flat_text as [|sen ft IH]; intros d; [done|].
  unfold word_stream. rewrite bind_cons, foldl_app. simpl. by rewrite IH.
Qed.

Lemma dict_wordfreq_stream (flat_text : list pystr) :
  dict_wordfreq word_tokenize flat_text
  = foldl count_word [] (word_stream word_tokenize flat_text).
Proof. apply count_sentences_stream. Qed.

Lemma total_occurrences_stream (w : pystr) (flat_text : list pystr) :
  total_occurrences word_tokenize w flat_text
  = length (filter (λ t, t = w) (word_stream word_tokenize flat_text)).
Proof.
  unfold total_occurrences, word_stream.
  induction flat_text as [|sen ft IH]; [done|].
  rewrite bind_cons, filter_app, length_app. simpl. by rewrite IH.
Qed.

Lemma dict_wordfreq_NoDup (flat_text : list pystr) :
  NoDup (dict_wordfreq word_tokenize flat_text).*1.
Proof.
  rewrite dict_wordfreq_stream. apply count_words_NoDup. constructor.
Qed.

(** The count the table of the loops holds for [w]. *)
Lemma dict_wordfreq_get (w : pystr) (flat_text : list pystr) :
  dict_get w (dict_wordfreq word_tokenize flat_text)
  = let n := Z.of_nat (total_occurrences word_tokenize w flat_text) in
    if long w && (0 <? n) then Some n else None.
Proof.
  rewrite dict_wordfreq_stream, count_words_get, total_occurrences_stream.
  unfold counted. simpl. destruct (long w); [|done]. simpl.
  destruct (length _) as [|n]; [done|].
  simpl. f_equal.
Qed.
End CounterFacts.

(** ** Sorting by count *)

Lemma sorted_insert_Permutation (x : pystr * Z) (l : dict) :
  sorted_insert x l ≡ₚ x :: l.
Proof.
  induction l as [|y l IH]; simpl; [done|].
  destruct (x.2 <? y.2); [|done].
  rewrite IH. apply Permutation_swap.
Qed.

Lemma sorted_by_count_Permutation (d : dict) : sorted_by_count d ≡ₚ d.
Proof.
  induction d as [|x d IH]; simpl; [done|].
  by rewrite sorted_insert_Permutation, IH.
Qed.

Lemma sorted_by_count_length (d : dict) : length (sorted_by_count d) = length d.
Proof. by rewrite sorted_by_count_Permutation. Qed.

Lemma sorted_insert_sorted (x : pystr * Z) (l : dict) :
  StronglySorted count_ge l → StronglySorted count_ge (sorted_insert x l).
Proof.
  induction l as [|y l IH]; simpl; intros Hl.
  - repeat constructor.
  - apply StronglySorted_inv in Hl as [Hl Hy].
    destruct (x.2 <? y.2) eqn:Hxy.
    + constructor; [by apply IH|].
      rewrite sorted_insert_Permutation. constructor; [|done].
      unfold count_ge. lia.
    + constructor; [by constructor|].
      constructor; [unfold count_ge; lia|].
      eapply Forall_impl; [exact Hy|]. unfold count_ge. intros z Hz. lia.
Qed.

Lemma sorted_by_count_sorted (d : dict) : StronglySorted count_ge (sorted_by_count d).
Proof.
  induction d as [|x d IH]; simpl; [constructor|].
  by apply sorted_insert_sorted.
Qed.

Lemma StronglySorted_lookup {A} (R : relation A) (l : list A) (i j : nat) (x y : A) :
  StronglySorted R l → (i < j)%nat → l !! i = Some x → l !! j = Some y → R x y.
Proof.
  intros Hl. revert i j. induction Hl as [|z l Hl IH Hz]; intros i j Hij Hi Hj.
  - by rewrite lookup_nil in Hi.
  - destruct j as [|j]; [lia|]. destruct i as [|i]; simpl in *.
    + injection Hi as ->. rewrite Forall_forall in Hz.
      apply Hz. by eapply list_elem_of_lookup_2.
    + apply (IH i j); [lia | done | done].
Qed.

Lemma sorted_non_increasing (rows : dict) :
  StronglySorted count_ge rows → non_increasing rows.
Proof.
  intros Hs i j p q Hij Hi Hj.
  destruct (decide (i = j)) as [->|Hne].
  - rewrite Hi in Hj. injection Hj as ->. lia.
  - apply (StronglySorted_lookup count_ge rows i j p q); [done | lia | done | done].
Qed.

Lemma non_increasing_take (rows : dict) (n : nat) :
  non_increasing rows → non_increasing (take n rows).
Proof.
  intros H i j p q Hij Hi Hj.
  apply lookup_take_Some in Hi as [Hi _]. apply lookup_take_Some in Hj as [Hj _].
  by apply (H i j).
Qed.

(** Stability: the items with a given count keep their relative order. *)
Lemma sorted_insert_stable (c : Z) (x : pystr * Z) (l : dict) :
  filter (λ p, p.2 = c) (sorted_insert x l) = filter (λ p, p.2 = c) (x :: l).
Proof.
  induction l as [|y l IH]; simpl; [done|].
  destruct (x.2 <? y.2) eqn:Hxy; [|done].
  rewrite filter_cons, IH, !filter_cons.
  destruct (decide (y.2 = c)) as [Hy|Hy]; [|done].
  destruct (decide (x.2 = c)) as [Hx|Hx]; [|done].
  apply Z.ltb_lt in Hxy. lia.
Qed.

Lemma sorted_by_count_stable (c : Z) (d : dict) :
  filter (λ p, p.2 = c) (sorted_by_count d) = filter (λ p, p.2 = c) d.
Proof.
  induction d as [|x d IH]; simpl; [done|].
  by rewrite sorted_insert_stable, !filter_cons, IH.
Qed.

Lemma dict_get_Permutation (w : pystr) (d d' : dict) :
  NoDup d.*1 → d ≡ₚ d' → dict_get w d' = dict_get w d.
Proof.
  intros Hd Hp.
  assert (NoDup d'.*1) as Hd' by (by rewrite <- Hp).
  destruct (dict_get w d) as [v|] eqn:Hg.
  - apply elem_of_dict_get; [done|]. rewrite <- Hp. by apply dict_get_Some_elem_of.
  - apply dict_get_None. rewrite <- Hp. by apply dict_get_None.
Qed.

(** ** The counting stage *)

Section CreateBow.
Context (word_tokenize : pystr → list pystr).

Local Abbreviation total w ft := (Z.of_nat (total_occurrences word_tokenize w ft)).

Lemma create_bow_NoDup (flat_text : list pystr) :
  NoDup (create_bow word_tokenize flat_text).*1.
Proof.
  unfold create_bow. rewrite sorted_by_count_Permutation.
  apply dict_wordfreq_NoDup.
Qed.

Lemma create_bow_get (w : pystr) (flat_text : list pystr) :
  dict_get w (create_bow word_tokenize flat_text)
  = if (2 <? len w) && (0 <? total w flat_text) then Some (total w flat_text) else None.
Proof.
  unfold create_bow.
  rewrite (dict_get_Permutation w (dict_wordfreq word_tokenize flat_text)).
  - apply dict_wordfreq_get.
  - apply dict_wordfreq_NoDup.
  - symmetry. apply sorted_by_count_Permutation.
Qed.

(** C1. For every sequence of cleaned sentences, the table of the
    counting stage has one entry per key; a word of more than two
    characters that occurs in the word stream is mapped to the number of
    its tokenized occurrences, summed over all sentences; every other
    word (two characters or fewer, or no occurrence) has no entry. *)
Theorem create_bow_count_conservation (flat_text : list pystr) (w : pystr) :
  let table := create_bow word_tokenize flat_text in
  let n := Z.of_nat (total_occurrences word_tokenize w flat_text) in
  NoDup table.*1
  ∧ dict_get w table = (if (2 <? len w) && (0 <? n) then Some n else None)
  ∧ (w ∈ table.*1 ↔ 2 < len w ∧ 0 < n).
Proof.
  intros table n. split_and!.
  - apply create_bow_NoDup.
  - apply create_bow_get.
  - pose proof (create_bow_get w flat_text) as Hg. fold table n in Hg.
    pose proof (dict_get_None w table) as Hn.
    destruct (Z.ltb_spec 2 (len w)), (Z.ltb_spec 0 n); simpl in Hg.
    + split; [done|]. intros _. apply dec_stable. intros Hw.
      apply Hn in Hw. congruence.
    + split; [|lia]. intros Hw. by apply Hn in Hw.
    + split; [|lia]. intros Hw. by apply Hn in Hw.
    + split; [|lia]. intros Hw. by apply Hn in Hw.
Qed.

Lemma elem_of_create_bow (w : pystr) (v : Z) (flat_text : list pystr) :
  (w, v) ∈ create_bow word_tokenize flat_text
  ↔ 2 < len w ∧ 0 < v ∧ v = total w flat_text.
Proof.
  pose proof (create_bow_get w flat_text) as Hg. split.
  - intros Hin. apply elem_of_dict_get in Hin; [|apply create_bow_NoDup].
    rewrite Hin in Hg.
    destruct (Z.ltb_spec 2 (len w)), (Z.ltb_spec 0 (total w flat_text));
      simpl in Hg; try done.
    injection Hg as ->. done.
  - intros (Hw & Hv & ->). apply dict_get_Some_elem_of. rewrite Hg.
    rewrite (proj2 (Z.ltb_lt _ _) Hw), (proj2 (Z.ltb_lt _ _) Hv). done.
Qed.

(** C9. The counting stage yields the same word-to-count mapping for
    every reordering of the sentences: the two tables hold the same
    (word, count) pairs and answer every lookup alike. *)
Theorem create_bow_order_insensitive (flat_text flat_text' : list pystr) :
  flat_text ≡ₚ flat_text' →
  create_bow word_tokenize flat_text ≡ₚ create_bow word_tokenize flat_text'
  ∧ (∀ p, p ∈ create_bow word_tokenize flat_text
          ↔ p ∈ create_bow word_tokenize flat_text')
  ∧ (∀ w, dict_get w (create_bow word_tokenize flat_text)
          = dict_get w (create_bow word_tokenize flat_text')).
Proof.
  intros Hp.
  assert (∀ w, total w flat_text = total w flat_text') as Ht.
  { intros w. unfold total_occurrences. by rewrite Hp. }
  assert (∀ p, p ∈ create_bow word_tokenize flat_text
               ↔ p ∈ create_bow word_tokenize flat_text') as Hin.
  { intros [w v]. by rewrite !elem_of_create_bow, Ht. }
  split_and!.
  - apply NoDup_Permutation; [| |done].
    + eapply NoDup_fmap_1, create_bow_NoDup.
    + eapply NoDup_fmap_1, create_bow_NoDup.
  - done.
  - intros w. by rewrite !create_bow_get, Ht.
Qed.
End CreateBow.

(** ** Order of the table *)

Lemma filter_fmap_pair (f : pystr → Z) (c : Z) (l : list pystr) :
  (filter (λ p : pystr * Z, p.2 = c) ((λ w, (w, f w)) <$> l)).*1
  = filter (λ w, f w = c) l.
Proof.
  induction l as [|w l IH]; [done|].
  rewrite fmap_cons, !filter_cons. cbn [snd].
  destruct (decide (f w = c)); [|exact IH].
  rewrite fmap_cons. cbn [fst]. f_equal. exact IH.
Qed.

Lemma filter_all {A} (P : A → Prop) `{!∀ x, Decision (P x)} (l : list A) :
  (∀ x, P x) → filter P l = l.
Proof.
  intros HP. induction l as [|x l IH]; [done|].
  by rewrite filter_cons_True, IH.
Qed.

Lemma dict_from_keys (f : pystr → Z) (d : dict) :
  (∀ w v, (w, v) ∈ d → v = f w) → d = (λ w, (w, f w)) <$> d.*1.
Proof.
  induction d as [|[k u] d IH]; intros H; [done|].
  rewrite !fmap_cons. simpl. f_equal.
  - f_equal. apply H. left.
  - apply IH. intros w v Hin. apply H. by right.
Qed.

(** [first_occurrences] keeps every element of the list, once. *)
Lemma elem_of_first_occurrences (x : pystr) (l : list pystr) :
  x ∈ first_occurrences l ↔ x ∈ l.
Proof.
  induction l as [|a l IH]; [done|]. cbn [first_occurrences].
  rewrite !elem_of_cons, list_elem_of_filter, IH.
  destruct (decide (x = a)) as [->|Hne]; [split; by left|].
  split; [intros [?|[_ ?]] | intros [?|?]]; auto.
Qed.

Lemma first_occurrences_NoDup (l : list pystr) : NoDup (first_occurrences l).
Proof.
  induction l as [|a l IH]; [constructor|]. cbn [first_occurrences].
  constructor; [|by apply NoDup_filter].
  rewrite list_elem_of_filter. by intros [? _].
Qed.

(** A word seen before keeps its place; a new word goes to the end. *)
Lemma first_occurrences_snoc (l : list pystr) (x : pystr) :
  first_occurrences (l ++ [x])
  = if decide (x ∈ l) then first_occurrences l else first_occurrences l ++ [x].
Proof.
  induction l as [|a l IH]; [done|].
  cbn [app first_occurrences]. rewrite IH.
  destruct (decide (x = a)) as [->|Hxa].
  - rewrite (decide_True (P := a ∈ a :: l)) by left.
    destruct (decide (a ∈ l)); [done|].
    rewrite filter_app, filter_cons_False by (by intros ?).
    by rewrite filter_nil, app_nil_r.
  - destruct (decide (x ∈ l)) as [Hin|Hin].
    + by rewrite (decide_True (P := x ∈ a :: l)) by (by right).
    + rewrite (decide_False (P := x ∈ a :: l))
        by (rewrite not_elem_of_cons; done).
      by rewrite filter_app, filter_cons_True by done.
Qed.

Section TableOrder.
Context (word_tokenize : pystr → list pystr).

(** The keys of the table are the counted words in the order of their
    first occurrences, after the keys that were there before. *)
Lemma count_words_keys (ws : list pystr) (d : dict) :
  (foldl count_word d ws).*1
  = d.*1 ++ filter (λ w, w ∉ d.*1)
              (first_occurrences (filter (λ w, 2 < len w) ws)).
Proof.
  revert d. induction ws as [|t ws IH]; intros d.
  - simpl. by rewrite app_nil_r.
  - simpl foldl. rewrite IH. unfold count_word. rewrite filter_cons.
    destruct (Z.ltb_spec 2 (len t)) as [Ht|Ht].
    + rewrite decide_True by done. simpl first_occurrences.
      rewrite dict_incr_keys, filter_cons.
      destruct (decide (t ∈ d.*1)) as [Hin|Hin].
      * rewrite decide_False by (by intros ?). f_equal.
        symmetry. apply list_filter_filter_l. intros x Hx ->. done.
      * rewrite decide_True by done. rewrite <- app_assoc. simpl.
        do 2 f_equal. rewrite list_filter_filter.
        apply list_filter_iff. intros x.
        rewrite not_elem_of_app, list_elem_of_singleton. done.
    + rewrite decide_False by lia. done.
Qed.

Lemma dict_wordfreq_keys (flat_text : list pystr) :
  (dict_wordfreq word_tokenize flat_text).*1
  = first_occurrences
      (filter (λ w, 2 < len w) (word_stream word_tokenize flat_text)).
Proof.
  rewrite dict_wordfreq_stream, count_words_keys. simpl.
  apply filter_all. intros x. apply not_elem_of_nil.
Qed.

Lemma dict_wordfreq_values (flat_text : list pystr) :
  dict_wordfreq word_tokenize flat_text
  = (λ w, (w, Z.of_nat (total_occurrences word_tokenize w flat_text)))
      <$> (dict_wordfreq word_tokenize flat_text).*1.
Proof.
  apply dict_from_keys. intros w v Hin.
  apply elem_of_dict_get in Hin; [|apply dict_wordfreq_NoDup].
  rewrite dict_wordfreq_get in Hin. simpl in Hin.
  destruct (_ && _); congruence.
Qed.

(** C10. Among the words with one and the same count [c], the sorted
    table keeps the order of first occurrence in the word stream of the
    sentences: its words with count [c] are the words of the stream (of
    more than two characters) that occur [c] times, each once, in the
    order in which they first occur. *)
Theorem create_bow_ties_first_occurrence (flat_text : list pystr) (c : Z) :
  (filter (λ p, p.2 = c) (create_bow word_tokenize flat_text)).*1
  = filter (λ w, Z.of_nat (total_occurrences word_tokenize w flat_text) = c)
      (first_occurrences
         (filter (λ w, 2 < len w) (word_stream word_tokenize flat_text))).
Proof.
  unfold create_bow. rewrite sorted_by_count_stable.
  rewrite dict_wordfreq_values.
  rewrite (filter_fmap_pair
             (λ w, Z.of_nat (total_occurrences word_tokenize w flat_text))).
  by rewrite dict_wordfreq_keys.
Qed.
End TableOrder.

(** ** The reporter *)

Lemma output_rows (d : dict) (a k : nat) :
  (a + k ≤ length d)%nat →
  mapM (λ i, word ← py_index d.*1 i; count ← py_index d.*2 i;
             mret (format_line word count)) (seq a k)
  = Ok (item_line <$> take k (drop a d)).
Proof.
  revert a. induction k as [|k IH]; intros a Hk; [done|].
  destruct (lookup_lt_is_Some_2 d a) as [[w c] Hd]; [lia|].
  cbn [seq mapM].
  rewrite (py_index_lookup d.*1 a w) by (by rewrite list_lookup_fmap, Hd).
  rewrite (py_index_lookup d.*2 a c) by (by rewrite list_lookup_fmap, Hd).
  rewrite !bind_Ok, IH by lia. rewrite bind_Ok.
  by rewrite (drop_S d (w, c) a Hd).
Qed.

(** [output_bow] never fails on an index: it writes the lines of the first
    items of the table it is given. *)
Lemma output_bow_lines (d : dict) (N : Z) :
  output_bow d N
  = Ok (item_line <$> take (Z.to_nat (effective_length (len d) N)) d).
Proof.
  unfold output_bow, effective_length, len.
  assert (∀ n : nat, (n ≤ length d)%nat →
            mapM (λ i, word ← py_index d.*1 i; count ← py_index d.*2 i;
                       mret (format_line word count)) (seq 0 n)
            = Ok (item_line <$> take n d)) as Hrows.
  { intros n Hn. by rewrite output_rows by lia. }
  destruct (Z.leb_spec N 0), (Z.ltb_spec (Z.of_nat (length d)) N),
    (Z.ltb_spec 0 N); simpl; try lia.
  - by rewrite Hrows by lia.
  - rewrite Hrows by lia. do 3 f_equal. lia.
  - rewrite Hrows by lia. do 3 f_equal. lia.
Qed.

Lemma py_String (a : ascii) (s : string) : py (String a s) = N_of_ascii a :: py s.
Proof. reflexivity. Qed.

(** [str(n)] holds digits, behind a minus sign for a negative [n]. *)
Lemma string_of_uint_digits (d : Decimal.uint) :
  Forall (λ c, (48 ≤ c ≤ 57)%N) (py (NilEmpty.string_of_uint d)).
Proof.
  induction d; cbn [NilEmpty.string_of_uint]; rewrite ?py_String;
    constructor; try done; vm_compute; split; discriminate.
Qed.

Lemma str_of_int_characters (n : Z) :
  Forall (λ c, c ≠ chr_tab ∧ c ≠ chr_newline) (str_of_int n).
Proof.
  assert (∀ d, Forall (λ c, c ≠ chr_tab ∧ c ≠ chr_newline)
                 (py (NilZero.string_of_uint d))) as Hu.
  { intros d. unfold NilZero.string_of_uint.
    assert (Forall (λ c, c ≠ chr_tab ∧ c ≠ chr_newline)
              (py (NilEmpty.string_of_uint d))) as Hd.
    { eapply Forall_impl; [apply string_of_uint_digits|].
      unfold chr_tab, chr_newline. intros c Hc. simpl in Hc. lia. }
    destruct d; try exact Hd. repeat constructor; discriminate. }
  unfold str_of_int, NilZero.string_of_int.
  destruct (Z.to_int n) as [d|d]; [apply Hu|].
  rewrite py_String. constructor; [split; discriminate | apply Hu].
Qed.

Lemma text_lines_from_line (cur body rest : pystr) :
  chr_newline ∉ body →
  text_lines_from cur (body ++ chr_newline :: rest)
  = (reverse cur ++ body) :: text_lines_from [] rest.
Proof.
  revert cur. induction body as [|c body IH]; intros cur Hb.
  - cbn [app text_lines_from]. rewrite N.eqb_refl. by rewrite app_nil_r.
  - apply not_elem_of_cons in Hb as [Hc Hb]. cbn [app text_lines_from].
    rewrite (proj2 (N.eqb_neq c chr_newline)) by congruence.
    rewrite (IH _ Hb), reverse_cons, <- app_assoc. done.
Qed.

(** The lines of the file are the rows written, a word, a tab and a count
    each, when no word holds a newline. *)
Lemma text_lines_rows (rows : dict) :
  Forall (λ p, chr_newline ∉ p.1) rows →
  text_lines (file_text (item_line <$> rows))
  = (λ p, p.1 ++ [chr_tab] ++ str_of_int p.2) <$> rows.
Proof.
  unfold text_lines, file_text.
  induction 1 as [|[w v] rows Hw _ IH]; [done|].
  rewrite !fmap_cons. cbn [concat fst snd]. rewrite <- IH.
  unfold item_line, format_line. cbn [fst snd].
  replace ((w ++ [chr_tab] ++ str_of_int v ++ [chr_newline])
           ++ concat (item_line <$> rows))
    with ((w ++ [chr_tab] ++ str_of_int v)
          ++ chr_newline :: concat (item_line <$> rows))
    by (by rewrite <- !app_assoc).
  rewrite text_lines_from_line; [done|].
  rewrite !not_elem_of_app. split_and!; [done | |].
  - intros H%list_elem_of_singleton. discriminate.
  - pose proof (str_of_int_characters v) as Hc.
    rewrite Forall_forall in Hc. intros Hin. by destruct (Hc _ Hin).
Qed.

(** C4. For every table of [U] unique words, none of them holding a
    newline, and every requested length [N], the reporter writes exactly
    [min U N] lines when [N > 0] and exactly [U] lines when [N <= 0]: the
    text written (once the file is open) has that many lines, and they
    are the first rows of the table, a word, a tab and a count each. *)
Theorem output_bow_line_count (d : dict) (N : Z) :
  Forall (λ p, chr_newline ∉ p.1) d →
  ∃ writes rows,
    output_bow d N = Ok writes
    ∧ rows `prefix_of` d
    ∧ text_lines (file_text writes)
      = (λ p, p.1 ++ [chr_tab] ++ str_of_int p.2) <$> rows
    ∧ len (text_lines (file_text writes))
      = (if 0 <? N then Z.min (len d) N else len d).
Proof.
  intros Hd.
  set (n := Z.to_nat (effective_length (len d) N)).
  assert (text_lines (file_text (item_line <$> take n d))
          = (λ p, p.1 ++ [chr_tab] ++ str_of_int p.2) <$> take n d) as Hlines.
  { apply text_lines_rows, Forall_take, Hd. }
  exists (item_line <$> take n d), (take n d). split_and!.
  - apply output_bow_lines.
  - apply prefix_take.
  - exact Hlines.
  - rewrite Hlines. unfold len. rewrite length_fmap, length_take.
    unfold n, effective_length, len. destruct (Z.ltb_spec 0 N); lia.
Qed.

(** C5. For every frequency table, the (word, count) pairs written to the
    output, the first rows of the table sorted by [create_bow], are
    non-increasing in count from the first line to the last. *)
Theorem output_bow_sort_order (items : dict) (N : Z) :
  ∃ rows, output_bow (sorted_by_count items) N = Ok (item_line <$> rows)
          ∧ rows `prefix_of` sorted_by_count items
          ∧ non_increasing rows.
Proof.
  eexists. split_and!.
  - apply output_bow_lines.
  - apply prefix_take.
  - apply non_increasing_take, sorted_non_increasing, sorted_by_count_sorted.
Qed.

(** ** The text extractor *)

Lemma startswith_prefix (pat s : pystr) :
  startswith pat s = true ↔ ∃ post, s = pat ++ post.
Proof.
  revert s. induction pat as [|p pat IH]; intros s; simpl.
  - split; [intros _; by exists s | done].
  - destruct s as [|c s].
    + split; [done | by intros [post ?]].
    + rewrite andb_true_iff, N.eqb_eq, IH. split.
      * intros [-> [post ->]]. by exists post.
      * intros [post [= -> ->]]. split; [done | by exists post].
Qed.

(** [py_in] decides the occurrence of a literal. *)
Lemma py_in_occurs (pat s : pystr) :
  py_in pat s = true ↔ ∃ pre post, s = pre ++ pat ++ post.
Proof.
  induction s as [|c s IH]; simpl.
  - rewrite startswith_prefix. split.
    + intros [post H]. by exists [], post.
    + intros (pre & post & H). symmetry in H.
      apply app_eq_nil in H as [-> H]. by exists post.
  - rewrite orb_true_iff, startswith_prefix, IH. split.
    + intros [[post H]|(pre & post & ->)].
      * by exists [], post.
      * by exists (c :: pre), post.
    + intros ([|c' pre] & post & H); simpl in H.
      * left. by exists post.
      * injection H as -> ->. right. by exists pre, post.
Qed.

(** Without an occurrence of the pattern, [re.split] returns the subject
    as its only piece. *)
Lemma re_split_from_no_match (pat cur s : pystr) :
  py_in pat s = false → re_split_from pat 0 cur s = [reverse cur ++ s].
Proof.
  revert cur. induction s as [|c s IH]; intros cur.
  - intros _. simpl. by rewrite app_nil_r.
  - cbn [py_in re_split_from]. intros [Hs Hin]%orb_false_iff.
    rewrite Hs, (IH _ Hin), reverse_cons, <- app_assoc. done.
Qed.

Lemma re_split_no_match (pat s : pystr) :
  py_in pat s = false → re_split pat s = [s].
Proof. intros H. unfold re_split. by rewrite re_split_from_no_match. Qed.

Lemma re_split_from_skip (pat cur x s : pystr) :
  re_split_from pat (length x) cur (x ++ s) = re_split_from pat 0 cur s.
Proof. induction x as [|c x IH]; [done | exact IH]. Qed.

(** At an occurrence of the pattern the current piece ends, and the scan
    goes on behind the occurrence. *)
Lemma re_split_from_match (p : pychar) (pat cur post : pystr) :
  re_split_from (p :: pat) 0 cur ((p :: pat) ++ post)
  = reverse cur :: re_split (p :: pat) post.
Proof.
  assert (startswith (p :: pat) ((p :: pat) ++ post) = true) as Hs.
  { apply startswith_prefix. by exists post. }
  cbn [app re_split_from] in *. rewrite Hs. f_equal.
  cbn [length]. rewrite Nat.sub_1_r. cbn [Nat.pred].
  apply re_split_from_skip.
Qed.

(** No occurrence of [<body>] starts inside a text and ends in a marker
    that follows it: the marker has its only ['<'] in front. *)
Lemma body_marker_no_overlap (s post : pystr) :
  s ≠ [] →
  startswith (py "<body>") (s ++ py "<body>" ++ post) = true →
  startswith (py "<body>") s = true.
Proof.
  change (py "<body>") with [60; 98; 111; 100; 121; 62]%N.
  intros Hs H.
  destruct s as [|c1 [|c2 [|c3 [|c4 [|c5 [|c6 s]]]]]]; [done|..];
    cbn [app startswith] in H |- *;
    repeat (apply andb_true_iff in H as [? H]);
    try match goal with
        | Hc : (_ =? 60)%N = true |- _ => vm_compute in Hc; discriminate Hc
        end.
  by repeat (apply andb_true_iff; split).
Qed.

(** Up to the first marker the document is one piece. *)
Lemma re_split_from_first_marker (cur pre post : pystr) :
  py_in (py "<body>") pre = false →
  re_split_from (py "<body>") 0 cur (pre ++ py "<body>" ++ post)
  = (reverse cur ++ pre) :: re_split (py "<body>") post.
Proof.
  revert cur. induction pre as [|c pre IH]; intros cur Hin.
  - rewrite app_nil_r. apply (re_split_from_match 60%N).
  - cbn [py_in] in Hin. apply orb_false_iff in Hin as [Hs Hin].
    assert (startswith (py "<body>") ((c :: pre) ++ py "<body>" ++ post) = false)
      as Hs'.
    { apply not_true_is_false. intros H.
      apply body_marker_no_overlap in H; [congruence | done]. }
    cbn [app re_split_from] in *. rewrite Hs', (IH _ Hin).
    by rewrite reverse_cons, <- app_assoc.
Qed.

(** A document with one marker: [tei_body[1]] is all the text behind it. *)
Lemma tei_body_1_one_marker (a b : pystr) :
  py_in (py "<body>") a = false → py_in (py "<body>") b = false →
  tei_body_1 (a ++ py "<body>" ++ b) = Ok b.
Proof.
  intros Ha Hb. unfold tei_body_1, re_split.
  rewrite re_split_from_first_marker by done.
  by rewrite re_split_no_match.
Qed.

(** A document with a second marker: [tei_body[1]] ends there, whatever
    follows. *)
Lemma tei_body_1_two_markers (a b c : pystr) :
  py_in (py "<body>") a = false → py_in (py "<body>") b = false →
  tei_body_1 (a ++ py "<body>" ++ b ++ py "<body>" ++ c) = Ok b.
Proof.
  intros Ha Hb. unfold tei_body_1, re_split.
  rewrite re_split_from_first_marker by done. unfold re_split.
  by rewrite re_split_from_first_marker.
Qed.

Section ExtractorFacts.
Context (lower : pystr → pystr) (is_word is_space : pychar → bool)
        (sent_tokenize : pystr → list pystr)
        (read_text : pystr → outcome pystr).

Local Abbreviation extract_tei_doc' :=
  (extract_tei_doc lower is_word is_space sent_tokenize).
Local Abbreviation extract_tei_from' :=
  (extract_tei_from lower is_word is_space sent_tokenize read_text).
Local Abbreviation extract_tei' :=
  (extract_tei lower is_word is_space sent_tokenize read_text).

Lemma tei_body_1_missing (tei : pystr) :
  py_in (py "<body>") tei = false → tei_body_1 tei = Raised IndexError.
Proof.
  intros H. unfold tei_body_1. rewrite re_split_no_match by done.
  by apply py_index_out_of_range.
Qed.

Lemma extract_tei_doc_missing (tei : pystr) :
  py_in (py "<body>") tei = false → extract_tei_doc' tei = Raised IndexError.
Proof.
  intros H. unfold extract_tei_doc. by rewrite tei_body_1_missing.
Qed.

(** The loop over [l1 ++ l2] is the loop over [l1] followed, when that
    one raises nothing, by the loop over [l2]. *)
Lemma extract_tei_from_app (flat_text : list pystr) (l1 l2 : list pystr) :
  extract_tei_from' flat_text (l1 ++ l2)
  = extract_tei_from' flat_text l1 ≫= λ flat_text', extract_tei_from' flat_text' l2.
Proof.
  revert flat_text. induction l1 as [|f l1 IH]; intros flat_text; [done|].
  simpl. destruct (read_text f) as [tei|e]; [|done]. rewrite !bind_Ok.
  destruct (extract_tei_doc' tei) as [sentences|e]; [|done].
  rewrite !bind_Ok. apply IH.
Qed.

(** C7. A document whose content has no [<body>] marker makes the
    extraction fail: [extract_tei] returns no sentence list whatever the
    other files are, and when the files before it are extracted without
    an error, the error raised is the [IndexError] of [tei_body[1]]. The
    file is not skipped. *)
Theorem extract_tei_missing_body (pre post : list pystr) (tei_file tei : pystr) :
  read_text tei_file = Ok tei →
  py_in (py "<body>") tei = false →
  (∀ flat_text, extract_tei' (pre ++ tei_file :: post) ≠ Ok flat_text)
  ∧ (∀ sentences, extract_tei' pre = Ok sentences →
       extract_tei' (pre ++ tei_file :: post) = Raised IndexError).
Proof.
  intros Hread Hin.
  assert (∀ acc, extract_tei_from' acc (tei_file :: post) = Raised IndexError)
    as Hhere.
  { intros acc. simpl. rewrite Hread, bind_Ok.
    by rewrite extract_tei_doc_missing. }
  unfold extract_tei. rewrite extract_tei_from_app. split.
  - intros flat_text.
    destruct (extract_tei_from' [] pre) as [acc|e]; [|done].
    by rewrite bind_Ok, Hhere.
  - intros sentences ->. by rewrite bind_Ok, Hhere.
Qed.
End ExtractorFacts.

(** C2. On a document in which [<body>] occurs twice, [tei_body[1]] is the
    text between the first and the second marker only: the text after the
    second marker is not part of it, and none of its sentences reaches the
    output sequence. *)
Theorem extract_tei_second_marker :
  tei_body_1 (py "<TEI><body>one cat.<body>two dogs.</body></TEI>")
  = Ok (py "one cat.")
  ∧ extract_tei sample_lower sample_is_word sample_is_space sample_sent_tokenize
      sample_read_text [py "corpus/twice.xml"]
    = Ok [py "one cat "].
Proof. split; vm_compute; reflexivity. Qed.

(** ** The sampler *)

Lemma py_slice_to_take {A} (l : list A) (k : Z) :
  0 ≤ k → py_slice_to l k = take (Z.to_nat k) l.
Proof.
  intros Hk. unfold py_slice_to.
  by destruct (Z.ltb_spec k 0); [lia|].
Qed.

Lemma sample_randbelow_lt (n : nat) (g : N) :
  (0 < n)%nat → ((sample_randbelow n g).1 < n)%nat.
Proof.
  intros Hn. unfold sample_randbelow. simpl.
  pose proof (N.mod_lt g (N.of_nat n)). lia.
Qed.

Section SamplerFacts.
Context {A : Type} (G : Type) (randbelow : nat → G → nat * G).
(** [_randbelow(n)] returns a number below [n]. *)
Hypothesis randbelow_lt : ∀ n g, (0 < n)%nat → ((randbelow n g).1 < n)%nat.

Lemma swap_Permutation (x : list A) (i j : nat) :
  (i < length x)%nat → (j < length x)%nat →
  ∃ x', swap x i j = Ok x' ∧ x' ≡ₚ x.
Proof.
  intros Hi Hj.
  destruct (lookup_lt_is_Some_2 x i Hi) as [xi Hxi].
  destruct (lookup_lt_is_Some_2 x j Hj) as [xj Hxj].
  exists (<[j:=xi]> (<[i:=xj]> x)). split.
  - unfold swap. by rewrite (py_index_lookup x j xj), (py_index_lookup x i xi).
  - by apply Permutation_insert_swap.
Qed.

(** The exchanges of [random.shuffle] stay inside the list, so it raises
    nothing and leaves a permutation of the list. *)
Lemma shuffle_from_Permutation (i : nat) (x : list A) (g : G) :
  (i < length x ∨ i = 0)%nat →
  ∃ x' g', shuffle_from G randbelow i x g = Ok (x', g') ∧ x' ≡ₚ x.
Proof.
  revert x g. induction i as [|i IH]; intros x g Hi.
  - by exists x, g.
  - destruct Hi as [Hi|Hi]; [|lia]. cbn [shuffle_from].
    pose proof (randbelow_lt (S (S i)) g ltac:(lia)) as Hj.
    destruct (randbelow (S (S i)) g) as [j g']. simpl in Hj.
    destruct (swap_Permutation x (S i) j) as (x1 & -> & Hx1); [lia | lia |].
    rewrite bind_Ok.
    destruct (IH x1 g') as (x2 & g2 & -> & Hx2).
    { left. rewrite Hx1. lia. }
    exists x2, g2. split; [done|]. by rewrite Hx2.
Qed.

Lemma shuffle_Permutation (x : list A) (g : G) :
  ∃ x' g', shuffle G randbelow x g = Ok (x', g') ∧ x' ≡ₚ x.
Proof. apply shuffle_from_Permutation. lia. Qed.

(** What a call of [pick_random] leaves behind. *)
Lemma pick_random_Ok (tei_files : list A) (K : Z) (g : G) :
  ∃ shuffled g',
    pick_random G randbelow tei_files K g
    = Ok (Sampled (take (Z.to_nat (effective_length (len tei_files) K)) shuffled)
                  shuffled g')
    ∧ shuffled ≡ₚ tei_files.
Proof.
  destruct (shuffle_Permutation tei_files g) as (shuffled & g' & Hs & Hp).
  exists shuffled, g'. split; [|done].
  unfold pick_random. rewrite Hs, bind_Ok. unfold mret, outcome_ret.
  do 2 f_equal. unfold effective_length, len.
  destruct (Z.leb_spec K 0), (Z.ltb_spec (Z.of_nat (length tei_files)) K),
    (Z.ltb_spec 0 K); simpl; try lia;
    rewrite py_slice_to_take by lia; f_equal; lia.
Qed.

(** C3. For every discovered list of length [M] and every requested
    sample size [K], the sampler returns a list of length [min M K] when
    [K > 0] and of length [M] when [K <= 0]; every returned path is a
    discovered one, and the returned paths are distinct when the
    discovered ones are. *)
Theorem pick_random_sampler_bound (tei_files : list A) (K : Z) (g : G) :
  ∃ r, pick_random G randbelow tei_files K g = Ok r
       ∧ len (returned r)
         = (if 0 <? K then Z.min (len tei_files) K else len tei_files)
       ∧ returned r ⊆ tei_files
       ∧ (NoDup tei_files → NoDup (returned r)).
Proof.
  destruct (pick_random_Ok tei_files K g) as (shuffled & g' & -> & Hp).
  eexists. split; [done|]. simpl. split_and!.
  - unfold len, effective_length. rewrite length_take, Hp.
    destruct (Z.ltb_spec 0 K); lia.
  - intros a Ha%subseteq_take. by rewrite <- Hp.
  - intros Hnd. apply (sublist_NoDup _ shuffled); [|apply sublist_take].
    by rewrite Hp.
Qed.

(** C8, as the code has it. The sampler consumes entropy and shuffles the
    list it is passed in place: after the call that list holds the
    elements it held before, in the shuffled order, and the returned
    sample is a prefix of it. The result is determined by the list, the
    sample size and the state of the generator. *)
Theorem pick_random_shuffles_in_place (tei_files : list A) (K : Z) (g : G) :
  ∃ r, pick_random G randbelow tei_files K g = Ok r
       ∧ tei_files_after r ≡ₚ tei_files
       ∧ returned r `prefix_of` tei_files_after r
       ∧ (∀ r', pick_random G randbelow tei_files K g = Ok r' → r' = r).
Proof.
  destruct (pick_random_Ok tei_files K g) as (shuffled & g' & -> & Hp).
  eexists. split; [done|]. simpl. split_and!.
  - done.
  - apply prefix_take.
  - by intros r' [= <-].
Qed.
End SamplerFacts.

(** ** File discovery and the whole run *)

(** [walk_dir] yields nothing exactly where [scandir] raises. *)
Lemma walk_dir_scandir (top : pystr) (n : fsnode) :
  walk_dir top n
  = match scandir (Some n) with
    | Raised _ => []
    | Ok entries =>
        (top, (filter (λ e, is_dir e.2) entries).*1,
              (filter (λ e, ¬ is_dir e.2) entries).*1)
        :: flat_map (λ e, if is_dir e.2
                          then walk_dir (os_path_join top e.1) e.2
                          else []) entries
    end.
Proof. by destruct n as [|[|] entries]. Qed.

Lemma os_walk_unavailable (top : pystr) (root : option fsnode) (e : exn) :
  scandir root = Raised e → os_walk top root = [].
Proof. intros H. unfold os_walk. by rewrite H. Qed.

Section MainFacts.
Context (lower : pystr → pystr) (is_word is_space : pychar → bool)
        (sent_tokenize word_tokenize : pystr → list pystr)
        (read_text : pystr → outcome pystr)
        (G : Type) (randbelow : nat → G → nat * G).

(** C6, as the code has it. When the root path does not exist or cannot
    be listed ([os.scandir] raises on it), file discovery raises
    nothing: it returns the empty list, and the run goes on with no
    document and ends normally with an empty output. *)
Theorem get_files_unavailable_root
    (path_batch : pystr) (root : option fsnode) (e : exn) (seeded : G) :
  scandir root = Raised e →
  get_files path_batch root = []
  ∧ main lower is_word is_space sent_tokenize word_tokenize read_text
      G randbelow path_batch root seeded = Ok [].
Proof.
  intros H.
  assert (get_files path_batch root = []) as Hfiles.
  { unfold get_files. by rewrite (os_walk_unavailable _ _ e). }
  split; [done|]. unfold main. rewrite Hfiles. reflexivity.
Qed.
End MainFacts.

(** ** The properties on concrete inputs *)

(** C6 fails as stated: on a root path that does not exist, file discovery
    returns the empty list and the run ends without an error. *)
Lemma get_files_missing_root_no_error :
  scandir None = Raised FileNotFoundError
  ∧ get_files (py "no/such/dir") None = []
  ∧ main sample_lower sample_is_word sample_is_space sample_sent_tokenize
      sample_word_tokenize sample_read_text N sample_randbelow
      (py "no/such/dir") None 4%N = Ok [].
Proof. split_and!; reflexivity. Qed.

Lemma get_files_unavailable_root_witness :
  scandir (Some (Dir false [(py "a.xml", File)])) = Raised PermissionError
  ∧ get_files (py "corpus") (Some (Dir false [(py "a.xml", File)])) = []
  ∧ main sample_lower sample_is_word sample_is_space sample_sent_tokenize
      sample_word_tokenize sample_read_text N sample_randbelow
      (py "corpus") (Some (Dir false [(py "a.xml", File)])) 4%N = Ok [].
Proof.
  split; [reflexivity|].
  apply (get_files_unavailable_root sample_lower sample_is_word sample_is_space
           sample_sent_tokenize sample_word_tokenize sample_read_text
           N sample_randbelow (py "corpus") (Some (Dir false [(py "a.xml", File)]))
           PermissionError 4%N).
  reflexivity.
Defined.

(** C8 fails as stated: the list passed to the sampler is not left
    unchanged, its two paths have changed places after the call. *)
Lemma pick_random_changes_argument :
  ∃ r, pick_random N sample_randbelow [py "a.xml"; py "b.xml"] 1 4%N = Ok r
       ∧ tei_files_after r = [py "b.xml"; py "a.xml"]
       ∧ tei_files_after r ≠ [py "a.xml"; py "b.xml"].
Proof. eexists. split_and!; [reflexivity | reflexivity | discriminate]. Qed.

Lemma pick_random_shuffles_in_place_witness :
  (∀ n g, (0 < n)%nat → ((sample_randbelow n g).1 < n)%nat)
  ∧ ∃ r, pick_random N sample_randbelow [py "a.xml"; py "b.xml"; py "c.xml"] 2 4%N
         = Ok r
         ∧ tei_files_after r ≡ₚ [py "a.xml"; py "b.xml"; py "c.xml"]
         ∧ returned r `prefix_of` tei_files_after r
         ∧ (∀ r', pick_random N sample_randbelow
                    [py "a.xml"; py "b.xml"; py "c.xml"] 2 4%N = Ok r' → r' = r).
Proof.
  split; [exact sample_randbelow_lt|].
  exact (pick_random_shuffles_in_place N sample_randbelow sample_randbelow_lt
           [py "a.xml"; py "b.xml"; py "c.xml"] 2 4%N).
Defined.

Lemma pick_random_sampler_bound_witness :
  (∀ n g, (0 < n)%nat → ((sample_randbelow n g).1 < n)%nat)
  ∧ NoDup [py "a.xml"; py "b.xml"; py "c.xml"]
  ∧ ∃ r, pick_random N sample_randbelow [py "a.xml"; py "b.xml"; py "c.xml"] 2 4%N
         = Ok r
         ∧ len (returned r) = 2
         ∧ returned r ⊆ [py "a.xml"; py "b.xml"; py "c.xml"]
         ∧ NoDup (returned r).
Proof.
  assert (NoDup [py "a.xml"; py "b.xml"; py "c.xml"]) as Hnd.
  { apply (bool_decide_unpack _). vm_compute. exact I. }
  split; [exact sample_randbelow_lt|]. split; [exact Hnd|].
  destruct (pick_random_sampler_bound N sample_randbelow sample_randbelow_lt
              [py "a.xml"; py "b.xml"; py "c.xml"] 2 4%N)
    as (r & Hr & Hlen & Hsub & Hdup).
  exists r. split_and!; [exact Hr | exact Hlen | exact Hsub | exact (Hdup Hnd)].
Defined.

Lemma extract_tei_missing_body_witness :
  sample_read_text (py "corpus/nobody.xml")
  = Ok (py "<TEI><text>no marker here</text></TEI>")
  ∧ py_in (py "<body>") (py "<TEI><text>no marker here</text></TEI>") = false
  ∧ (∀ flat_text,
       extract_tei sample_lower sample_is_word sample_is_space
         sample_sent_tokenize sample_read_text
         ([py "corpus/a.xml"] ++ py "corpus/nobody.xml" :: [py "corpus/sub/b.xml"])
       ≠ Ok flat_text)
  ∧ (∀ sentences,
       extract_tei sample_lower sample_is_word sample_is_space
         sample_sent_tokenize sample_read_text [py "corpus/a.xml"] = Ok sentences →
       extract_tei sample_lower sample_is_word sample_is_space
         sample_sent_tokenize sample_read_text
         ([py "corpus/a.xml"] ++ py "corpus/nobody.xml" :: [py "corpus/sub/b.xml"])
       = Raised IndexError).
Proof.
  split; [reflexivity|]. split; [reflexivity|].
  apply (extract_tei_missing_body sample_lower sample_is_word sample_is_space
           sample_sent_tokenize sample_read_text
           [py "corpus/a.xml"] [py "corpus/sub/b.xml"] (py "corpus/nobody.xml")
           (py "<TEI><text>no marker here</text></TEI>")); reflexivity.
Defined.

Lemma create_bow_order_insensitive_witness :
  [py "the cat sat "; py "a dog ran fast "] ≡ₚ [py "a dog ran fast "; py "the cat sat "]
  ∧ create_bow sample_word_tokenize [py "the cat sat "; py "a dog ran fast "]
    ≡ₚ create_bow sample_word_tokenize [py "a dog ran fast "; py "the cat sat "].
Proof.
  split; [apply Permutation_swap|].
  apply (create_bow_order_insensitive sample_word_tokenize
           [py "the cat sat "; py "a dog ran fast "]
           [py "a dog ran fast "; py "the cat sat "]).
  apply Permutation_swap.
Defined.

Lemma output_bow_line_count_witness :
  Forall (λ p, chr_newline ∉ p.1) [(py "the", 2); (py "cat", 1); (py "sat", 1)]
  ∧ ∃ writes rows,
      output_bow [(py "the", 2); (py "cat", 1); (py "sat", 1)] 2 = Ok writes
      ∧ rows `prefix_of` [(py "the", 2); (py "cat", 1); (py "sat", 1)]
      ∧ text_lines (file_text writes)
        = (λ p, p.1 ++ [chr_tab] ++ str_of_int p.2) <$> rows
      ∧ len (text_lines (file_text writes))
        = (if 0 <? 2
           then Z.min (len [(py "the", 2); (py "cat", 1); (py "sat", 1)]) 2
           else len [(py "the", 2); (py "cat", 1); (py "sat", 1)]).
Proof.
  assert (Forall (λ p, chr_newline ∉ p.1)
            [(py "the", 2); (py "cat", 1); (py "sat", 1)]) as H.
  { repeat constructor; apply (bool_decide_unpack _); vm_compute; exact I. }
  split; [exact H|].
  exact (output_bow_line_count [(py "the", 2); (py "cat", 1); (py "sat", 1)] 2 H).
Defined.

(** The scenario of the specification: two files, all documents used, all
    words written. The sampler has put [sub/b.xml] first. *)
Example main_scenario :
  main sample_lower sample_is_word sample_is_space sample_sent_tokenize
    sample_word_tokenize sample_read_text N sample_randbelow
    (py "corpus") (Some sample_root) 4%N
  = Ok (item_line <$> [(py "ran", 2); (py "the", 2); (py "cat", 2);
                       (py "dog", 1); (py "fast", 1); (py "sat", 1)]).
Proof. vm_compute. reflexivity. Qed.

(** * Further properties *)

(** ** File discovery *)

(** Induction over a directory tree. *)
Lemma fsnode_nested_ind (P : fsnode → Prop) :
  P File →
  (∀ readable entries, Forall (λ e, P e.2) entries → P (Dir readable entries)) →
  ∀ n, P n.
Proof.
  intros HFile HDir. fix IH 1. intros [|readable entries]; [exact HFile|].
  apply HDir. induction entries as [|[name child] entries IHe]; constructor.
  - apply IH.
  - exact IHe.
Qed.

Lemma flat_map_flat_map {A B C} (f : B → list C) (g : A → list B) (l : list A) :
  flat_map f (flat_map g l) = flat_map (λ a, flat_map f (g a)) l.
Proof.
  induction l as [|a l IH]; [done|]. simpl. by rewrite flat_map_app, IH.
Qed.

Lemma os_walk_Some (top : pystr) (n : fsnode) :
  os_walk top (Some n) = walk_dir top n.
Proof. by destruct n as [|[|] entries]. Qed.

Lemma endswith_app (pat a b : pystr) :
  endswith pat b = true → endswith pat (a ++ b) = true.
Proof.
  unfold endswith. rewrite reverse_app, !startswith_prefix.
  intros [post ->]. exists (post ++ reverse a). by rewrite app_assoc.
Qed.

Lemma os_path_join_endswith (pat a b : pystr) :
  endswith pat b = true → endswith pat (os_path_join a b) = true.
Proof.
  intros Hb. unfold os_path_join.
  destruct (startswith _ b); [done|].
  destruct (_ || _); [by apply endswith_app|].
  rewrite app_assoc. by apply endswith_app.
Qed.

(** X1. Every path that file discovery returns ends with [.xml],
    whatever the tree holds. *)
Theorem get_files_only_xml (path_batch : pystr) (root : option fsnode) :
  Forall (λ path, endswith (py ".xml") path = true) (get_files path_batch root).
Proof.
  apply Forall_forall. intros path Hin. unfold get_files in Hin.
  apply list_elem_of_In, in_flat_map in Hin
    as ([[path_dir dirnames] filenames] & _ & Hin).
  apply list_elem_of_In, list_elem_of_fmap in Hin as (f & -> & Hf).
  apply list_elem_of_filter in Hf as [Hf _].
  apply os_path_join_endswith. by apply Is_true_true.
Qed.

(** What one directory contributes. *)
Lemma get_files_walk_dir (top : pystr) (entries : list (pystr * fsnode)) :
  get_files top (Some (Dir true entries))
  = (os_path_join top <$> xml_names entries)
    ++ flat_map (λ e, if is_dir e.2
                      then get_files (os_path_join top e.1) (Some e.2)
                      else []) entries.
Proof.
  unfold get_files at 1. rewrite os_walk_Some. cbn [walk_dir flat_map].
  f_equal. rewrite flat_map_flat_map. apply flat_map_ext. intros [name child].
  cbn [fst snd]. destruct (is_dir child); [|done].
  unfold get_files. by rewrite os_walk_Some.
Qed.

(** X3. A subdirectory that cannot be listed is skipped without an error:
    the result is the one for the same tree with that directory empty. *)
Theorem get_files_skips_unreadable
    (top name : pystr) (before after inside : list (pystr * fsnode)) :
  get_files top (Some (Dir true (before ++ (name, Dir false inside) :: after)))
  = get_files top (Some (Dir true (before ++ (name, Dir true []) :: after))).
Proof.
  rewrite !get_files_walk_dir. f_equal.
  - unfold xml_names. rewrite !filter_app, !filter_cons. done.
  - rewrite !flat_map_app. f_equal.
Qed.

Lemma names_ok_Dir (readable : bool) (entries : list (pystr * fsnode)) :
  names_ok (Dir readable entries) = true →
  NoDup entries.*1
  ∧ Forall (λ e, e.1 ≠ [] ∧ (chr_slash ∉ e.1) ∧ names_ok e.2 = true) entries.
Proof.
  cbn [names_ok]. intros [Hnd Hall]%andb_true_iff. split.
  - by apply bool_decide_eq_true in Hnd.
  - apply Forall_forall. intros e He.
    rewrite forallb_forall in Hall. specialize (Hall e).
    rewrite <- list_elem_of_In in Hall. specialize (Hall He).
    apply andb_true_iff in Hall as [[H1 H2]%andb_true_iff H3].
    apply negb_true_iff, bool_decide_eq_false in H1.
    apply negb_true_iff, bool_decide_eq_false in H2. done.
Qed.

(** The path of an entry is the path of its directory, a ['/'] unless one
    is there already, and the name of the entry. *)
Lemma os_path_join_name (a b : pystr) :
  chr_slash ∉ b → os_path_join a b = os_path_join a [] ++ b.
Proof.
  intros Hb. unfold os_path_join.
  assert (startswith (py "/") b = false) as ->.
  { destruct b as [|c b]; [done|]. change (py "/") with [chr_slash].
    cbn [startswith]. apply not_elem_of_cons in Hb as [Hc _].
    rewrite andb_true_r. apply N.eqb_neq. congruence. }
  change (startswith (py "/") []) with false. cbn match.
  destruct (_ || _); [by rewrite app_nil_r|].
  by rewrite app_nil_r, <- app_assoc.
Qed.

Lemma os_path_join_prefix (a : pystr) : a `prefix_of` os_path_join a [].
Proof.
  unfold os_path_join. change (startswith (py "/") []) with false. cbn match.
  destruct (_ || _); by apply prefix_app_r.
Qed.

Lemma os_path_join_subdir (a d : pystr) :
  d ≠ [] → chr_slash ∉ d →
  os_path_join (os_path_join a d) [] = os_path_join a [] ++ d ++ py "/".
Proof.
  intros Hd Hs. rewrite (os_path_join_name a d Hs).
  destruct (exists_last Hd) as (d' & c & ->).
  apply not_elem_of_app in Hs as [_ Hc].
  apply not_elem_of_cons in Hc as [Hc _].
  unfold os_path_join at 1. change (startswith (py "/") []) with false. cbn match.
  assert (bool_decide (os_path_join a [] ++ d' ++ [c] = []) = false) as ->.
  { apply bool_decide_eq_false. intros H.
    apply app_eq_nil in H as [_ H]. by apply app_eq_nil in H as [_ H]. }
  assert (endswith (py "/") (os_path_join a [] ++ d' ++ [c]) = false) as ->.
  { unfold endswith. change (py "/") with [chr_slash].
    rewrite !reverse_app, !reverse_singleton. cbn [app startswith].
    rewrite andb_true_r. apply N.eqb_neq. congruence. }
  cbn [orb]. by rewrite <- !app_assoc.
Qed.

(** Every path of a tree lies under the (normalised) path of its root. *)
Lemma get_files_under_base (n : fsnode) :
  names_ok n = true →
  ∀ top, Forall (λ path, os_path_join top [] `prefix_of` path)
           (get_files top (Some n)).
Proof.
  induction n as [|readable entries IH] using fsnode_nested_ind; intros Hok top.
  { constructor. }
  destruct readable; [|constructor].
  apply names_ok_Dir in Hok as [_ Hok].
  rewrite get_files_walk_dir. apply Forall_app. split.
  - apply Forall_forall. intros path (f & -> & Hf)%list_elem_of_fmap.
    unfold xml_names in Hf. apply list_elem_of_filter in Hf as [_ Hf].
    apply list_elem_of_fmap in Hf as (e & -> & He).
    apply list_elem_of_filter in He as [_ He].
    rewrite Forall_forall in Hok. destruct (Hok e He) as (_ & Hs & _).
    rewrite (os_path_join_name top e.1 Hs). by apply prefix_app_r.
  - apply Forall_forall. intros path Hin.
    apply list_elem_of_In, in_flat_map in Hin as (e & He & Hin).
    apply list_elem_of_In in He. apply list_elem_of_In in Hin.
    destruct (is_dir e.2); [|by apply elem_of_nil in Hin].
    rewrite Forall_forall in Hok. destruct (Hok e He) as (Hne & Hs & Hoke).
    rewrite Forall_forall in IH. specialize (IH e He Hoke (os_path_join top e.1)).
    rewrite Forall_forall in IH. specialize (IH path Hin).
    rewrite os_path_join_subdir in IH by done.
    etrans; [|exact IH]. by apply prefix_app_r.
Qed.

(** X4. In a tree whose entry names are as [os.scandir] reports them,
    every discovered path starts with the root path given to
    [get_files]. *)
Theorem get_files_under_root (path_batch : pystr) (n : fsnode) :
  names_ok n = true →
  Forall (λ path, path_batch `prefix_of` path) (get_files path_batch (Some n)).
Proof.
  intros Hok. eapply Forall_impl; [by apply get_files_under_base|].
  intros path Hp. etrans; [apply os_path_join_prefix | exact Hp].
Qed.

Lemma get_files_under_root_witness :
  names_ok sample_root = true
  ∧ Forall (λ path, py "corpus" `prefix_of` path)
      (get_files (py "corpus") (Some sample_root)).
Proof.
  split; [reflexivity|].
  apply (get_files_under_root (py "corpus") sample_root). reflexivity.
Defined.

Lemma slash_split (d d' r r' : pystr) :
  chr_slash ∉ d → chr_slash ∉ d' →
  d ++ chr_slash :: r = d' ++ chr_slash :: r' → d = d'.
Proof.
  revert d'. induction d as [|c d IH]; intros [|c' d'] Hd Hd' Heq;
    simplify_eq/=; try done.
  - by apply not_elem_of_cons in Hd' as [? _].
  - by apply not_elem_of_cons in Hd as [? _].
  - apply not_elem_of_cons in Hd as [_ Hd].
    apply not_elem_of_cons in Hd' as [_ Hd'].
    f_equal. by apply (IH d').
Qed.

Lemma NoDup_flat_map_keyed {A C K} (f : A → list C) (key : A → K)
    (R : K → C → Prop) (l : list A) :
  NoDup (key <$> l) →
  (∀ a c, a ∈ l → c ∈ f a → R (key a) c) →
  (∀ k k' c, R k c → R k' c → k = k') →
  (∀ a, a ∈ l → NoDup (f a)) →
  NoDup (flat_map f l).
Proof.
  intros Hkeys HR Hfun Hnd. induction l as [|a l IH]; [constructor|].
  rewrite fmap_cons in Hkeys. apply NoDup_cons in Hkeys as [Ha Hkeys].
  cbn [flat_map]. apply NoDup_app. split_and!.
  - apply Hnd. left.
  - intros c Hc Hc'.
    apply list_elem_of_In, in_flat_map in Hc' as (a' & Ha' & Hc').
    apply list_elem_of_In in Ha'. apply list_elem_of_In in Hc'.
    apply Ha. apply list_elem_of_fmap. exists a'. split; [|done].
    apply (Hfun _ _ c); [apply HR; [left | done] | apply HR; [by right | done]].
  - apply IH; [done | | ].
    + intros a' c Ha' Hc. apply HR; [by right | done].
    + intros a' Ha'. apply Hnd. by right.
Qed.

Lemma NoDup_filter_fst {A B} (P : A * B → Prop) `{!∀ x, Decision (P x)}
    (l : list (A * B)) :
  NoDup l.*1 → NoDup (filter P l).*1.
Proof.
  induction l as [|x l IH]; [done|].
  rewrite fmap_cons, NoDup_cons, filter_cons. intros [Hx Hl].
  destruct (decide (P x)); [|by apply IH].
  rewrite fmap_cons. apply NoDup_cons. split; [|by apply IH].
  intros (y & Hy & Hin)%list_elem_of_fmap.
  apply list_elem_of_filter in Hin as [_ Hin].
  apply Hx. apply list_elem_of_fmap. by exists y.
Qed.

Lemma get_files_NoDup_base (n : fsnode) :
  names_ok n = true → ∀ top, NoDup (get_files top (Some n)).
Proof.
  induction n as [|readable entries IH] using fsnode_nested_ind; intros Hok top.
  { constructor. }
  destruct readable; [|constructor].
  pose proof (names_ok_Dir _ _ Hok) as [Hnames Hall].
  rewrite Forall_forall in Hall. rewrite Forall_forall in IH.
  assert (∀ f, f ∈ xml_names entries → chr_slash ∉ f) as Hxml.
  { intros f Hf. unfold xml_names in Hf.
    apply list_elem_of_filter in Hf as [_ Hf].
    apply list_elem_of_fmap in Hf as (e & -> & He).
    apply list_elem_of_filter in He as [_ He]. by apply Hall. }
  assert (∀ e path, e ∈ entries →
            path ∈ (if is_dir e.2
                    then get_files (os_path_join top e.1) (Some e.2) else []) →
            (chr_slash ∉ e.1)
            ∧ (os_path_join top [] ++ e.1 ++ py "/") `prefix_of` path) as Hsub.
  { intros e path He Hin. destruct (Hall e He) as (Hne & Hs & Hoke).
    split; [done|]. destruct (is_dir e.2); [|by apply elem_of_nil in Hin].
    pose proof (get_files_under_base e.2 Hoke (os_path_join top e.1)) as Hu.
    rewrite Forall_forall in Hu. specialize (Hu path Hin).
    by rewrite os_path_join_subdir in Hu. }
  rewrite get_files_walk_dir. apply NoDup_app. split_and!.
  - apply NoDup_fmap_2_strong.
    + intros f f' Hf Hf'.
      rewrite (os_path_join_name top f), (os_path_join_name top f') by auto.
      by intros ?%app_inv_head.
    + unfold xml_names. by apply NoDup_filter, NoDup_filter_fst.
  - intros path (f & -> & Hf)%list_elem_of_fmap Hin.
    apply list_elem_of_In, in_flat_map in Hin as (e & He & Hin).
    apply list_elem_of_In in He. apply list_elem_of_In in Hin.
    destruct (Hsub e _ He Hin) as [_ [rest Hrest]].
    rewrite (os_path_join_name top f) in Hrest by auto.
    rewrite <- !app_assoc in Hrest. apply app_inv_head in Hrest.
    apply (Hxml f Hf). rewrite Hrest. change (py "/") with [chr_slash].
    rewrite !elem_of_app. right. left. left.
  - apply (NoDup_flat_map_keyed _ fst
             (λ d path, (chr_slash ∉ d)
                        ∧ (os_path_join top [] ++ d ++ py "/") `prefix_of` path)).
    + done.
    + intros e path He Hin. exact (Hsub e path He Hin).
    + intros d d' path [Hd [r Hr]] [Hd' [r' Hr']].
      rewrite Hr in Hr'. rewrite <- !app_assoc in Hr'.
      apply app_inv_head in Hr'. change (py "/") with [chr_slash] in Hr'.
      by apply (slash_split d d' r r').
    + intros e He. destruct (Hall e He) as (_ & _ & Hoke).
      destruct (is_dir e.2); [by apply IH | constructor].
Qed.

(** X5. In a tree whose entry names are as [os.scandir] reports them, no
    path is discovered twice: the list [get_files] returns has no
    duplicates. *)
Theorem get_files_distinct (path_batch : pystr) (n : fsnode) :
  names_ok n = true → NoDup (get_files path_batch (Some n)).
Proof. intros Hok. by apply get_files_NoDup_base. Qed.

Lemma get_files_distinct_witness :
  names_ok sample_root = true
  ∧ NoDup (get_files (py "corpus") (Some sample_root)).
Proof.
  split; [reflexivity|].
  apply (get_files_distinct (py "corpus") sample_root). reflexivity.
Defined.

(** ** Markup removal *)

Lemma remove_tags_from_sublist (skip : nat) (s : pystr) :
  remove_tags_from skip s `sublist_of` s.
Proof.
  revert skip. induction s as [|c s IH]; intros skip; [done|].
  cbn [remove_tags_from]. destruct skip as [|k]; [|by apply sublist_cons].
  destruct (c =? chr_lt)%N; [|by apply sublist_skip].
  destruct (tag_extent s); [by apply sublist_cons | by apply sublist_skip].
Qed.

(** X6. Removing the markup only deletes characters: what is left is the
    text of the input, in its order. *)
Theorem remove_tags_only_deletes (s : pystr) : remove_tags s `sublist_of` s.
Proof. apply remove_tags_from_sublist. Qed.

Lemma remove_tags_from_skip (x s : pystr) :
  remove_tags_from (length x) (x ++ s) = remove_tags_from 0 s.
Proof. induction x as [|c x IH]; [done | exact IH]. Qed.

Lemma remove_tags_from_text (a s : pystr) :
  chr_lt ∉ a → remove_tags_from 0 (a ++ s) = a ++ remove_tags_from 0 s.
Proof.
  induction a as [|c a IH]; [done|]. intros [Hc Ha]%not_elem_of_cons.
  cbn [app remove_tags_from].
  rewrite (proj2 (N.eqb_neq c chr_lt)) by congruence.
  by rewrite IH.
Qed.

Lemma tag_extent_from_no_gt (i : nat) (best : option nat) (s : pystr) :
  gt_before_lt s = false → tag_extent_from i best s = best.
Proof.
  revert i. induction s as [|c s IH]; intros i; [done|].
  cbn [gt_before_lt tag_extent_from].
  destruct (c =? chr_lt)%N; [done|].
  destruct (c =? chr_gt)%N; [done|]. cbn [andb]. apply IH.
Qed.

(** The greedy match ends at the last ['>'] before the next ['<']. *)
Lemma tag_extent_from_tag (i : nat) (best : option nat) (t s : pystr) :
  chr_lt ∉ t → (1 ≤ i + length t)%nat → gt_before_lt s = false →
  tag_extent_from i best (t ++ chr_gt :: s) = Some (i + length t + 1)%nat.
Proof.
  revert i best. induction t as [|c t IH]; intros i best Ht Hi Hs.
  - cbn [app tag_extent_from length] in *.
    change (chr_gt =? chr_lt)%N with false. change (chr_gt =? chr_gt)%N with true.
    cbn match. destruct i as [|i]; [lia|]. cbn [andb Nat.ltb Nat.leb].
    rewrite tag_extent_from_no_gt by done. f_equal. lia.
  - apply not_elem_of_cons in Ht as [Hc Ht].
    cbn [app tag_extent_from length] in *.
    rewrite (proj2 (N.eqb_neq c chr_lt)) by congruence.
    rewrite IH by (done || lia). f_equal. lia.
Qed.

(** X7. Text without a ['<'] goes through the markup removal unchanged. *)
Theorem remove_tags_plain_text (s : pystr) : chr_lt ∉ s → remove_tags s = s.
Proof.
  intros Hs. unfold remove_tags.
  rewrite <- (app_nil_r s) at 1. rewrite remove_tags_from_text by done.
  by rewrite app_nil_r.
Qed.

Lemma remove_tags_plain_text_witness :
  (chr_lt ∉ py "the cat sat.")
  ∧ remove_tags (py "the cat sat.") = py "the cat sat.".
Proof.
  assert (chr_lt ∉ py "the cat sat.") as H.
  { apply (bool_decide_unpack _). vm_compute. exact I. }
  split; [exact H|]. exact (remove_tags_plain_text (py "the cat sat.") H).
Defined.

(** X8. A tag is removed together with everything up to the last ['>']
    that comes before the next ['<']: after plain text [a], a ['<'], a
    non-empty [t] without ['<'] (it may hold ['>']) and a ['>'] behind
    which no ['>'] comes before the next ['<'], the result is [a] and what
    the removal leaves of the rest. *)
Theorem remove_tags_tag (a t s : pystr) :
  chr_lt ∉ a → t ≠ [] → chr_lt ∉ t → gt_before_lt s = false →
  remove_tags (a ++ chr_lt :: t ++ chr_gt :: s) = a ++ remove_tags s.
Proof.
  intros Ha Hne Ht Hs. unfold remove_tags.
  rewrite remove_tags_from_text by done. f_equal.
  cbn [remove_tags_from]. change (chr_lt =? chr_lt)%N with true. cbn match.
  unfold tag_extent. rewrite tag_extent_from_tag; [|done| |done].
  - replace (0 + length t + 1)%nat with (length (t ++ [chr_gt]))
      by (rewrite length_app; simpl; lia).
    rewrite (cons_middle chr_gt t s), app_assoc.
    apply remove_tags_from_skip.
  - destruct t; [done | simpl; lia].
Qed.

Lemma remove_tags_tag_witness :
  (chr_lt ∉ py "one ") ∧ py "p> and " ≠ [] ∧ (chr_lt ∉ py "p> and ")
  ∧ gt_before_lt (py "two<b>") = false
  ∧ remove_tags (py "one " ++ chr_lt :: py "p> and " ++ chr_gt :: py "two<b>")
    = py "one " ++ remove_tags (py "two<b>").
Proof.
  assert (chr_lt ∉ py "one ") as H1.
  { apply (bool_decide_unpack _). vm_compute. exact I. }
  assert (chr_lt ∉ py "p> and ") as H2.
  { apply (bool_decide_unpack _). vm_compute. exact I. }
  split; [exact H1|]. split; [discriminate|]. split; [exact H2|].
  split; [reflexivity|].
  apply (remove_tags_tag (py "one ") (py "p> and ") (py "two<b>"));
    [exact H1 | discriminate | exact H2 | reflexivity].
Defined.

(** ** Cleaning and extraction *)

Section ExtractionFacts.
Context (lower : pystr → pystr) (is_word is_space : pychar → bool)
        (sent_tokenize : pystr → list pystr)
        (read_text : pystr → outcome pystr).

Lemma sub_spaces_from_Forall (P : pychar → Prop) (in_run : bool) (s : pystr) :
  P chr_space → Forall P s → Forall P (sub_spaces_from is_space in_run s).
Proof.
  intros Hsp Hs. revert in_run. induction Hs as [|c s Hc Hs IH]; intros in_run.
  - constructor.
  - cbn [sub_spaces_from]. destruct (is_space c), in_run; auto.
Qed.

(** X9. Every character of a cleaned sentence is a word character or a
    space. *)
Theorem clean_sentence_characters (sen : pystr) :
  Forall (λ c, c = chr_space ∨ is_word c = true)
    (clean_sentence is_word is_space sen).
Proof.
  unfold clean_sentence, sub_spaces. apply sub_spaces_from_Forall; [by left|].
  unfold sub_nonword. apply Forall_fmap, Forall_forall. intros c _. simpl.
  destruct (is_word c) eqn:Hc; auto.
Qed.

Lemma sub_spaces_from_single (in_run : bool) (s : pystr) :
  is_space chr_space = true →
  let t := sub_spaces_from is_space in_run s in
  Forall (λ c, is_space c = true → c = chr_space) t
  ∧ py_in [chr_space; chr_space] t = false
  ∧ (in_run = true → startswith [chr_space] t = false).
Proof.
  intros Hsp. revert in_run. induction s as [|c s IH]; intros in_run.
  - by repeat split.
  - cbn [sub_spaces_from]. destruct (is_space c) eqn:Hc.
    + destruct (IH true) as (H1 & H2 & H3). destruct in_run; [done|].
      split_and!; [by constructor | | done].
      cbn [py_in startswith]. rewrite N.eqb_refl, H2. cbn [andb].
      specialize (H3 eq_refl). cbn [startswith] in H3.
      destruct (sub_spaces_from is_space true s) as [|c' t']; [done|].
      rewrite H3. done.
    + destruct (IH false) as (H1 & H2 & _).
      assert ((chr_space =? c)%N = false) as Hne.
      { apply N.eqb_neq. intros <-. congruence. }
      split_and!.
      * constructor; [congruence | done].
      * cbn [py_in startswith]. by rewrite Hne, H2.
      * intros _. cbn [startswith]. by rewrite Hne.
Qed.

(** X10. Runs of whitespace are collapsed: in a cleaned sentence the only
    whitespace character is the space, and no two spaces follow each other
    (a space being whitespace). *)
Theorem clean_sentence_single_spaces (sen : pystr) :
  is_space chr_space = true →
  Forall (λ c, is_space c = true → c = chr_space)
    (clean_sentence is_word is_space sen)
  ∧ py_in (py "  ") (clean_sentence is_word is_space sen) = false.
Proof.
  intros Hsp. unfold clean_sentence, sub_spaces.
  destruct (sub_spaces_from_single false
              (sub_nonword is_word
                 (re_sub (py "&amp;") [chr_space]
                    (re_sub (py "&nbsp;") [chr_space] sen))) Hsp)
    as (H1 & H2 & _).
  by split.
Qed.

(** The sentences go behind the ones collected before. *)
Lemma extract_tei_from_acc (flat_text tei_files : list pystr) :
  extract_tei_from lower is_word is_space sent_tokenize read_text
    flat_text tei_files
  = extract_tei lower is_word is_space sent_tokenize read_text tei_files
    ≫= λ sentences, mret (flat_text ++ sentences).
Proof.
  unfold extract_tei. revert flat_text.
  induction tei_files as [|f rest IH]; intros flat_text.
  - simpl. unfold mret, outcome_ret. by rewrite app_nil_r.
  - cbn [extract_tei_from]. destruct (read_text f) as [tei|e]; [|done].
    rewrite !bind_Ok.
    destruct (extract_tei_doc lower is_word is_space sent_tokenize tei)
      as [sents|e]; [|done].
    rewrite !bind_Ok, (IH (flat_text ++ sents)), (IH ([] ++ sents)).
    destruct (extract_tei_from lower is_word is_space sent_tokenize read_text
                [] rest) as [more|e]; [|done].
    rewrite !bind_Ok. unfold mret, outcome_ret. simpl.
    by rewrite app_assoc.
Qed.

(** X11. The sentences of a list of files are the sentences of its first
    part followed by those of its second part; an error in the first part
    is the error of the whole, otherwise an error in the second part is. *)
Theorem extract_tei_app (files1 files2 : list pystr) :
  extract_tei lower is_word is_space sent_tokenize read_text (files1 ++ files2)
  = s1 ← extract_tei lower is_word is_space sent_tokenize read_text files1;
    s2 ← extract_tei lower is_word is_space sent_tokenize read_text files2;
    mret (s1 ++ s2).
Proof.
  unfold extract_tei at 1. rewrite extract_tei_from_app.
  fold (extract_tei lower is_word is_space sent_tokenize read_text files1).
  destruct (extract_tei lower is_word is_space sent_tokenize read_text files1)
    as [s1|e]; [|done].
  rewrite !bind_Ok. apply extract_tei_from_acc.
Qed.

(** X12. The extraction stops at the first file that fails, with the
    error of that file, be it raised by reading the file or by the missing
    marker; the files behind it play no part. *)
Theorem extract_tei_first_failure
    (pre post : list pystr) (tei_file : pystr) (sentences : list pystr) (e : exn) :
  extract_tei lower is_word is_space sent_tokenize read_text pre = Ok sentences →
  read_text tei_file ≫= extract_tei_doc lower is_word is_space sent_tokenize
  = Raised e →
  extract_tei lower is_word is_space sent_tokenize read_text
    (pre ++ tei_file :: post)
  = Raised e.
Proof.
  intros Hpre Hfail. unfold extract_tei in *.
  rewrite extract_tei_from_app, Hpre, bind_Ok. cbn [extract_tei_from].
  destruct (read_text tei_file) as [tei|e']; [|done].
  rewrite bind_Ok in Hfail |- *. by rewrite Hfail.
Qed.

(** X13. What stands before the first [<body>] marker plays no part: two
    documents that differ only there give the same sentences (or both the
    same error). *)
Theorem extract_tei_doc_ignores_header (header header' rest : pystr) :
  py_in (py "<body>") header = false →
  py_in (py "<body>") header' = false →
  extract_tei_doc lower is_word is_space sent_tokenize
    (header ++ py "<body>" ++ rest)
  = extract_tei_doc lower is_word is_space sent_tokenize
      (header' ++ py "<body>" ++ rest).
Proof.
  intros H H'. unfold extract_tei_doc, tei_body_1, re_split.
  by rewrite !re_split_from_first_marker.
Qed.

(** X14. For a document with exactly one [<body>] marker the sentences
    are those of the text behind the marker: newlines replaced, markup
    removed, lowercased, split into sentences, each sentence cleaned. *)
Theorem extract_tei_doc_one_marker (header body : pystr) :
  py_in (py "<body>") header = false →
  py_in (py "<body>") body = false →
  extract_tei_doc lower is_word is_space sent_tokenize
    (header ++ py "<body>" ++ body)
  = Ok (clean_sentence is_word is_space
          <$> sent_tokenize
                (lower (remove_tags (replace_char chr_newline chr_space body)))).
Proof.
  intros H Hb. unfold extract_tei_doc, tei_body_1, re_split.
  rewrite re_split_from_first_marker by done.
  by rewrite re_split_no_match.
Qed.
End ExtractionFacts.

(** ** More on the counting stage *)

Lemma total_count_Permutation (d d' : dict) :
  d ≡ₚ d' → total_count d = total_count d'.
Proof.
  unfold total_count. induction 1 as [|x l l' _ IH|x y l|l l' l'' _ IH1 _ IH2];
    simpl; lia.
Qed.

Lemma total_count_incr (w : pystr) (d : dict) :
  total_count (dict_incr w d) = total_count d + 1.
Proof.
  unfold total_count. induction d as [|[k v] d IH]; simpl; [done|].
  case_decide; simpl; lia.
Qed.

Section CounterMore.
Context (word_tokenize : pystr → list pystr).

Lemma total_count_words (ws : list pystr) (d : dict) :
  total_count (foldl count_word d ws)
  = total_count d + len (filter (λ w, 2 < len w) ws).
Proof.
  revert d. induction ws as [|t ws IH]; intros d.
  - unfold len. simpl. lia.
  - cbn [foldl]. rewrite IH. unfold count_word. rewrite filter_cons.
    destruct (Z.ltb_spec 2 (len t)).
    + rewrite decide_True by done. rewrite total_count_incr.
      unfold len. cbn [length]. lia.
    + rewrite decide_False by lia. done.
Qed.

(** X15. Nothing is lost and nothing is counted twice: the counts of the
    table add up to the number of words of more than two characters in
    the word stream of the sentences. *)
Theorem create_bow_total_count (flat_text : list pystr) :
  total_count (create_bow word_tokenize flat_text)
  = len (filter (λ w, 2 < len w) (word_stream word_tokenize flat_text)).
Proof.
  unfold create_bow.
  rewrite (total_count_Permutation _ _ (sorted_by_count_Permutation _)).
  rewrite dict_wordfreq_stream, total_count_words. done.
Qed.

(** X16. Counting two sequences of sentences one after the other adds the
    counts: the count of every word for [text1 ++ text2] is the sum of
    its counts for [text1] and for [text2]. *)
Theorem create_bow_app (text1 text2 : list pystr) (w : pystr) :
  count_of w (create_bow word_tokenize (text1 ++ text2))
  = count_of w (create_bow word_tokenize text1)
    + count_of w (create_bow word_tokenize text2).
Proof.
  unfold count_of. rewrite !create_bow_get.
  unfold total_occurrences. rewrite sum_list_with_app.
  destruct (2 <? len w); [|done]. cbn [andb].
  repeat match goal with
         | |- context [if 0 <? ?n then _ else _] => destruct (Z.ltb_spec 0 n)
         end; simpl; lia.
Qed.
End CounterMore.

Lemma sorted_by_count_sorted_id (d : dict) :
  StronglySorted count_ge d → sorted_by_count d = d.
Proof.
  induction 1 as [|x d Hd IH Hx]; [done|].
  cbn [sorted_by_count foldr]. fold (sorted_by_count d). rewrite IH.
  destruct d as [|y d]; [done|]. cbn [sorted_insert].
  apply Forall_cons in Hx as [Hy _]. unfold count_ge in Hy.
  by destruct (Z.ltb_spec x.2 y.2); [lia|].
Qed.

(** X17. Sorting a table that is sorted already changes nothing: sorting
    twice is sorting once. *)
Theorem sorted_by_count_idempotent (items : dict) :
  sorted_by_count (sorted_by_count items) = sorted_by_count items.
Proof. apply sorted_by_count_sorted_id, sorted_by_count_sorted. Qed.

(** ** More on the reporter *)

(** X18. The words left out are never more frequent than a word written:
    the sorted table is the written rows followed by the rows left out,
    and no count left out exceeds a count written. *)
Theorem output_bow_most_frequent (items : dict) (N : Z) :
  ∃ rows rest,
    output_bow (sorted_by_count items) N = Ok (item_line <$> rows)
    ∧ sorted_by_count items = rows ++ rest
    ∧ ∀ p q, p ∈ rows → q ∈ rest → q.2 ≤ p.2.
Proof.
  set (n := Z.to_nat (effective_length (len (sorted_by_count items)) N)).
  exists (take n (sorted_by_count items)), (drop n (sorted_by_count items)).
  split_and!.
  - apply output_bow_lines.
  - by rewrite take_drop.
  - pose proof (sorted_by_count_sorted items) as Hs.
    rewrite <- (take_drop n (sorted_by_count items)) in Hs.
    apply StronglySorted_app in Hs as [Hs _]. intros p q Hp Hq.
    exact (Hs p q Hp Hq).
Qed.

(** X19. With a requested length of 0 or less, or of the table size or
    more, the whole table is written, one line per item, in table
    order. *)
Theorem output_bow_whole_table (d : dict) (N : Z) :
  N ≤ 0 ∨ len d ≤ N → output_bow d N = Ok (item_line <$> d).
Proof.
  intros HN. rewrite output_bow_lines. do 2 f_equal.
  apply take_ge. unfold effective_length, len in *.
  destruct (Z.ltb_spec 0 N); lia.
Qed.

Lemma output_bow_whole_table_witness :
  (0 ≤ 0 ∨ len [(py "the", 2); (py "cat", 1)] ≤ 0)
  ∧ output_bow [(py "the", 2); (py "cat", 1)] 0
    = Ok (item_line <$> [(py "the", 2); (py "cat", 1)]).
Proof.
  split; [left; lia|].
  apply (output_bow_whole_table [(py "the", 2); (py "cat", 1)] 0). left. lia.
Defined.

Lemma take_prefix_le {A} (l : list A) (n m : nat) :
  (n ≤ m)%nat → take n l `prefix_of` take m l.
Proof.
  intros Hnm. replace (take n l) with (take n (take m l)).
  - apply prefix_take.
  - rewrite take_take. f_equal. lia.
Qed.

(** X20. A smaller requested length only cuts the output short: for
    [0 < N <= N'] the lines written for [N] are the first lines of those
    written for [N'], which are the first lines of the output of the
    whole table. *)
Theorem output_bow_prefix (d : dict) (N N' : Z) :
  0 < N ≤ N' →
  ∃ lines lines' whole,
    output_bow d N = Ok lines ∧ output_bow d N' = Ok lines'
    ∧ output_bow d 0 = Ok whole
    ∧ lines `prefix_of` lines' ∧ lines' `prefix_of` whole.
Proof.
  intros HN. do 3 eexists. rewrite !output_bow_lines.
  split_and!; try done; rewrite !fmap_take; apply take_prefix_le;
    unfold effective_length;
    repeat match goal with
           | |- context [if 0 <? ?n then _ else _] => destruct (Z.ltb_spec 0 n)
           end; lia.
Qed.

Lemma output_bow_prefix_witness :
  0 < 1 ≤ 2
  ∧ ∃ lines lines' whole,
      output_bow [(py "the", 2); (py "cat", 1); (py "sat", 1)] 1 = Ok lines
      ∧ output_bow [(py "the", 2); (py "cat", 1); (py "sat", 1)] 2 = Ok lines'
      ∧ output_bow [(py "the", 2); (py "cat", 1); (py "sat", 1)] 0 = Ok whole
      ∧ lines `prefix_of` lines' ∧ lines' `prefix_of` whole.
Proof.
  split; [lia|].
  apply (output_bow_prefix [(py "the", 2); (py "cat", 1); (py "sat", 1)] 1 2).
  lia.
Defined.

Lemma py_inj (s s' : string) : py s = py s' → s = s'.
Proof.
  revert s'. induction s as [|a s IH]; intros [|a' s']; try done.
  rewrite !py_String. intros [= Ha Hs]. f_equal; [|by apply IH].
  by rewrite <- (ascii_N_embedding a), <- (ascii_N_embedding a'), Ha.
Qed.

Lemma str_of_int_inj (n n' : Z) : str_of_int n = str_of_int n' → n = n'.
Proof.
  assert (∀ z, Z.to_int z ≠ Decimal.Pos Decimal.Nil
               ∧ Z.to_int z ≠ Decimal.Neg Decimal.Nil) as Hnil.
  { intros [|p|p]; split; try discriminate; cbn [Z.to_int];
      intros [= H]; by apply (Unsigned.to_uint_nonnil p). }
  unfold str_of_int. intros H%py_inj.
  apply (f_equal NilZero.int_of_string) in H.
  destruct (Hnil n), (Hnil n').
  rewrite !NilZero.isi in H by done.
  injection H as H. by apply to_int_inj.
Qed.

Lemma first_char_split (x : pychar) (d d' r r' : pystr) :
  x ∉ d → x ∉ d' → d ++ x :: r = d' ++ x :: r' → d = d' ∧ r = r'.
Proof.
  revert d'. induction d as [|c d IH]; intros [|c' d'] Hd Hd' Heq;
    cbn [app] in Heq.
  - by injection Heq as ->.
  - injection Heq as -> _. by apply not_elem_of_cons in Hd' as [? _].
  - injection Heq as -> _. by apply not_elem_of_cons in Hd as [? _].
  - injection Heq as -> Heq.
    apply not_elem_of_cons in Hd as [_ Hd].
    apply not_elem_of_cons in Hd' as [_ Hd'].
    destruct (IH d' Hd Hd' Heq) as [-> ->]. done.
Qed.

(** X21. The lines of the output can be read back without doubt: two
    items whose words hold no tab are written as the same line only when
    they have the same word and the same count. *)
Theorem format_line_inj (word word' : pystr) (count count' : Z) :
  chr_tab ∉ word → chr_tab ∉ word' →
  format_line word count = format_line word' count' →
  word = word' ∧ count = count'.
Proof.
  intros Hw Hw' Heq. unfold format_line in Heq. cbn [app] in Heq.
  apply first_char_split in Heq as [-> Heq]; [|done..].
  split; [done|]. apply app_inj_tail in Heq as [Heq _].
  by apply str_of_int_inj.
Qed.

(** X22. A write is one line of the file: for a word without a newline
    the string written ends with the only newline it holds. *)
Theorem format_line_one_line (word : pystr) (count : Z) :
  chr_newline ∉ word →
  ∃ text, format_line word count = text ++ [chr_newline] ∧ chr_newline ∉ text.
Proof.
  intros Hw. exists (word ++ [chr_tab] ++ str_of_int count). split.
  - unfold format_line. by rewrite <- !app_assoc.
  - rewrite !not_elem_of_app. split_and!; [done | |].
    + intros H%list_elem_of_singleton. discriminate.
    + pose proof (str_of_int_characters count) as Hc.
      rewrite Forall_forall in Hc. intros Hin. by destruct (Hc _ Hin).
Qed.

(** ** More on the sampler *)

(** X23. With fewer than two files nothing is shuffled: the sampler
    returns the list as it is, leaves the list of the caller as it is and
    draws no random number, whatever the sample size. *)
Theorem pick_random_short_list {A : Type} (G : Type) (randbelow : nat → G → nat * G)
    (tei_files : list A) (K : Z) (g : G) :
  (length tei_files ≤ 1)%nat →
  pick_random G randbelow tei_files K g = Ok (Sampled tei_files tei_files g).
Proof.
  intros Hlen.
  assert (shuffle G randbelow tei_files g = Ok (tei_files, g)) as Hs.
  { unfold shuffle. by replace (length tei_files - 1)%nat with O by lia. }
  unfold pick_random. rewrite Hs, bind_Ok. unfold mret, outcome_ret.
  do 2 f_equal. unfold len.
  destruct (Z.leb_spec K 0), (Z.ltb_spec (Z.of_nat (length tei_files)) K);
    cbn [orb]; rewrite py_slice_to_take by lia; apply take_ge; lia.
Qed.

Lemma pick_random_short_list_witness :
  (length [py "a.xml"] ≤ 1)%nat
  ∧ pick_random N sample_randbelow [py "a.xml"] 3000 4%N
    = Ok (Sampled [py "a.xml"] [py "a.xml"] 4%N).
Proof.
  split; [simpl; lia|].
  apply (pick_random_short_list N sample_randbelow [py "a.xml"] 3000 4%N).
  simpl. lia.
Defined.

Section SamplerMore.
Context {A : Type} (G : Type) (randbelow : nat → G → nat * G).
Hypothesis randbelow_lt : ∀ n g, (0 < n)%nat → ((randbelow n g).1 < n)%nat.

(** X24. With a sample size of 0 or less, or of the number of files or
    more, all files are used: the sampler returns the whole shuffled
    list, a permutation of the files it was given. *)
Theorem pick_random_all_files (tei_files : list A) (K : Z) (g : G) :
  K ≤ 0 ∨ len tei_files ≤ K →
  ∃ r, pick_random G randbelow tei_files K g = Ok r
       ∧ returned r = tei_files_after r
       ∧ returned r ≡ₚ tei_files.
Proof.
  intros HK.
  destruct (pick_random_Ok G randbelow randbelow_lt tei_files K g)
    as (shuffled & g' & -> & Hp).
  eexists. split; [done|]. cbn [returned tei_files_after].
  assert (take (Z.to_nat (effective_length (len tei_files) K)) shuffled = shuffled)
    as ->; [|done].
  apply take_ge. rewrite Hp. unfold effective_length, len in *.
  destruct (Z.ltb_spec 0 K); lia.
Qed.
End SamplerMore.

Lemma pick_random_all_files_witness :
  (∀ n g, (0 < n)%nat → ((sample_randbelow n g).1 < n)%nat)
  ∧ (0 ≤ 0 ∨ len [py "a.xml"; py "b.xml"; py "c.xml"] ≤ 0)
  ∧ ∃ r, pick_random N sample_randbelow [py "a.xml"; py "b.xml"; py "c.xml"] 0 4%N
         = Ok r
         ∧ returned r = tei_files_after r
         ∧ returned r ≡ₚ [py "a.xml"; py "b.xml"; py "c.xml"].
Proof.
  split; [exact sample_randbelow_lt|]. split; [left; lia|].
  apply (pick_random_all_files N sample_randbelow sample_randbelow_lt
           [py "a.xml"; py "b.xml"; py "c.xml"] 0 4%N).
  left. lia.
Defined.

(** ** More on the extraction and the whole run *)

Lemma re_split_from_length (pat : pystr) (skip : nat) (cur s : pystr) :
  (1 ≤ length (re_split_from pat skip cur s))%nat.
Proof.
  revert skip cur. induction s as [|c s IH]; intros skip cur; [simpl; lia|].
  cbn [re_split_from]. destruct skip; [|apply IH].
  destruct (startswith pat (c :: s)); [simpl; lia | apply IH].
Qed.

(** An occurrence of the pattern gives a second piece. *)
Lemma re_split_from_occurs (p : pychar) (pat cur s : pystr) :
  py_in (p :: pat) s = true →
  (2 ≤ length (re_split_from (p :: pat) 0 cur s))%nat.
Proof.
  revert cur. induction s as [|c s IH]; intros cur; [done|].
  cbn [py_in re_split_from]. destruct (startswith (p :: pat) (c :: s)).
  - intros _. cbn [length]. apply le_n_S, re_split_from_length.
  - cbn [orb]. apply IH.
Qed.

Section RunFacts.
Context (lower : pystr → pystr) (is_word is_space : pychar → bool)
        (sent_tokenize word_tokenize : pystr → list pystr)
        (read_text : pystr → outcome pystr)
        (G : Type) (randbelow : nat → G → nat * G).

(** X25. A document that holds the [<body>] marker is extracted without
    an error. *)
Theorem extract_tei_doc_with_marker (tei : pystr) :
  py_in (py "<body>") tei = true →
  ∃ sentences,
    extract_tei_doc lower is_word is_space sent_tokenize tei = Ok sentences.
Proof.
  intros Hin. unfold extract_tei_doc, tei_body_1, re_split, py_index.
  pose proof (re_split_from_occurs 60%N (py "body>") [] tei Hin) as Hlen.
  change (60%N :: py "body>") with (py "<body>") in Hlen.
  destruct (lookup_lt_is_Some_2 (re_split_from (py "<body>") 0 [] tei) 1)
    as [body ->]; [lia|].
  rewrite bind_Ok. by eexists.
Qed.

Lemma extract_tei_doc_marker (tei : pystr) :
  py_in (py "<body>") tei = true →
  ∃ sentences,
    extract_tei_doc lower is_word is_space sent_tokenize tei = Ok sentences.
Proof.
  intros Hin. unfold extract_tei_doc, tei_body_1, re_split, py_index.
  pose proof (re_split_from_occurs 60%N (py "body>") [] tei Hin) as Hlen.
  change (60%N :: py "body>") with (py "<body>") in Hlen.
  destruct (lookup_lt_is_Some_2 (re_split_from (py "<body>") 0 [] tei) 1)
    as [body ->]; [lia|].
  rewrite bind_Ok. by eexists.
Qed.

Lemma extract_tei_all_good (tei_files : list pystr) :
  Forall (λ f, ∃ tei, read_text f = Ok tei ∧ py_in (py "<body>") tei = true)
    tei_files →
  ∃ flat_text,
    extract_tei lower is_word is_space sent_tokenize read_text tei_files
    = Ok flat_text.
Proof.
  intros Hall. unfold extract_tei. generalize (@nil (list N)).
  induction Hall as [|f rest (tei & Hread & Hin) _ IH]; intros acc.
  - by exists acc.
  - cbn [extract_tei_from]. rewrite Hread, bind_Ok.
    destruct (extract_tei_doc_marker tei Hin) as [sents ->].
    rewrite bind_Ok. apply IH.
Qed.

Lemma extract_tei_one_bad (tei_files : list pystr) (tei_file tei : pystr) :
  tei_file ∈ tei_files → read_text tei_file = Ok tei →
  py_in (py "<body>") tei = false →
  ∀ flat_text,
    extract_tei lower is_word is_space sent_tokenize read_text tei_files
    ≠ Ok flat_text.
Proof.
  intros (pre & post & ->)%list_elem_of_split Hread Hin flat_text.
  unfold extract_tei. rewrite extract_tei_from_app.
  destruct (extract_tei_from _ _ _ _ _ [] pre) as [acc|e]; [|done].
  rewrite bind_Ok. cbn [extract_tei_from]. rewrite Hread, bind_Ok.
  by rewrite (extract_tei_doc_missing lower is_word is_space sent_tokenize tei Hin).
Qed.

(** X26. Whenever the run ends normally, its output is made of the lines
    of distinct words of more than two characters with counts of at least
    1, in an order in which the counts never go up, and it has at most
    [BOW_LENGTH] (50000) lines. *)
Theorem main_output (path_batch : pystr) (root : option fsnode) (seeded : G)
    (lines : list pystr) :
  main lower is_word is_space sent_tokenize word_tokenize read_text
    G randbelow path_batch root seeded = Ok lines →
  ∃ rows, lines = item_line <$> rows
          ∧ len lines ≤ BOW_LENGTH
          ∧ non_increasing rows
          ∧ NoDup rows.*1
          ∧ Forall (λ p, 2 < len p.1 ∧ 1 ≤ p.2) rows.
Proof.
  unfold main.
  destruct (pick_random _ _ _ _ _) as [picked|e]; [|done]. rewrite bind_Ok.
  destruct (extract_tei _ _ _ _ _ _) as [flat_text|e]; [|done]. rewrite bind_Ok.
  rewrite output_bow_lines. intros [= <-].
  set (table := create_bow word_tokenize flat_text).
  set (n := Z.to_nat (effective_length (len table) BOW_LENGTH)).
  exists (take n table). split_and!.
  - done.
  - unfold len. rewrite length_fmap, length_take.
    unfold n, effective_length, BOW_LENGTH, len. simpl. lia.
  - apply non_increasing_take, sorted_non_increasing, sorted_by_count_sorted.
  - rewrite fmap_take. apply (sublist_NoDup _ table.*1); [|apply sublist_take].
    apply create_bow_NoDup.
  - apply Forall_forall. intros [w v] Hin%subseteq_take.
    apply elem_of_create_bow in Hin as (Hw & Hv & _). simpl. lia.
Qed.

Hypothesis randbelow_lt : ∀ n g, (0 < n)%nat → ((randbelow n g).1 < n)%nat.

(** X28. When every discovered file can be read and holds the [<body>]
    marker, the sampler and the extractor raise nothing: the sample is
    drawn and its sentences are extracted, so that the run reaches the
    counting stage. *)
Theorem sample_extraction_succeeds
    (path_batch : pystr) (root : option fsnode) (seeded : G) :
  Forall (λ f, ∃ tei, read_text f = Ok tei ∧ py_in (py "<body>") tei = true)
    (get_files path_batch root) →
  ∃ picked flat_text,
    pick_random G randbelow (get_files path_batch root) DOCS_USED seeded
    = Ok picked
    ∧ extract_tei lower is_word is_space sent_tokenize read_text (returned picked)
      = Ok flat_text.
Proof.
  intros Hall.
  destruct (pick_random_Ok G randbelow randbelow_lt
              (get_files path_batch root) DOCS_USED seeded)
    as (shuffled & g' & -> & Hp).
  destruct (extract_tei_all_good
              (take (Z.to_nat (effective_length (len (get_files path_batch root))
                                 DOCS_USED)) shuffled))
    as [flat_text Hflat].
  { apply Forall_take. by rewrite Hp. }
  by eexists _, flat_text.
Qed.

(** X29. One document without the [<body>] marker among at most
    [DOCS_USED] (3000) discovered files makes the whole run fail: nothing
    is written. *)
Theorem main_fails_on_missing_body
    (path_batch : pystr) (root : option fsnode) (seeded : G)
    (tei_file tei : pystr) :
  len (get_files path_batch root) ≤ DOCS_USED →
  tei_file ∈ get_files path_batch root →
  read_text tei_file = Ok tei →
  py_in (py "<body>") tei = false →
  ∀ lines,
    main lower is_word is_space sent_tokenize word_tokenize read_text
      G randbelow path_batch root seeded ≠ Ok lines.
Proof.
  intros Hlen Hin Hread Hbody lines. unfold main.
  destruct (pick_random_Ok G randbelow randbelow_lt
              (get_files path_batch root) DOCS_USED seeded)
    as (shuffled & g' & -> & Hp).
  rewrite bind_Ok. cbn [returned].
  rewrite take_ge.
  2:{ rewrite Hp. unfold effective_length, len, DOCS_USED in *. simpl. lia. }
  destruct (extract_tei _ _ _ _ _ shuffled) as [flat_text|e] eqn:He; [|done].
  exfalso. apply (extract_tei_one_bad shuffled tei_file tei) in He; try done.
  by rewrite Hp.
Qed.
End RunFacts.

(** ** The further properties on concrete inputs *)

Lemma clean_sentence_single_spaces_witness :
  sample_is_space chr_space = true
  ∧ Forall (λ c, sample_is_space c = true → c = chr_space)
      (clean_sentence sample_is_word sample_is_space (py "a  b&amp; c"))
  ∧ py_in (py "  ")
      (clean_sentence sample_is_word sample_is_space (py "a  b&amp; c")) = false.
Proof.
  split; [reflexivity|].
  apply (clean_sentence_single_spaces sample_is_word sample_is_space
           (py "a  b&amp; c")).
  reflexivity.
Defined.

Lemma extract_tei_first_failure_witness :
  extract_tei sample_lower sample_is_word sample_is_space sample_sent_tokenize
    sample_read_text [py "corpus/a.xml"]
  = Ok [py "the cat sat "; py " the cat ran "]
  ∧ sample_read_text (py "corpus/gone.xml")
    ≫= extract_tei_doc sample_lower sample_is_word sample_is_space
         sample_sent_tokenize
    = Raised FileNotFoundError
  ∧ extract_tei sample_lower sample_is_word sample_is_space sample_sent_tokenize
      sample_read_text
      ([py "corpus/a.xml"] ++ py "corpus/gone.xml" :: [py "corpus/nobody.xml"])
    = Raised FileNotFoundError.
Proof.
  split; [vm_compute; reflexivity|]. split; [vm_compute; reflexivity|].
  apply (extract_tei_first_failure sample_lower sample_is_word sample_is_space
           sample_sent_tokenize sample_read_text
           [py "corpus/a.xml"] [py "corpus/nobody.xml"] (py "corpus/gone.xml")
           [py "the cat sat "; py " the cat ran "] FileNotFoundError);
    vm_compute; reflexivity.
Defined.

Lemma extract_tei_doc_ignores_header_witness :
  py_in (py "<body>") (py "<TEI><head>x</head>") = false
  ∧ py_in (py "<body>") (py "<TEI>") = false
  ∧ extract_tei_doc sample_lower sample_is_word sample_is_space sample_sent_tokenize
      (py "<TEI><head>x</head>" ++ py "<body>" ++ py "The cat sat.</body>")
    = extract_tei_doc sample_lower sample_is_word sample_is_space
        sample_sent_tokenize
        (py "<TEI>" ++ py "<body>" ++ py "The cat sat.</body>").
Proof.
  split; [reflexivity|]. split; [reflexivity|].
  apply (extract_tei_doc_ignores_header sample_lower sample_is_word
           sample_is_space sample_sent_tokenize
           (py "<TEI><head>x</head>") (py "<TEI>") (py "The cat sat.</body>"));
    reflexivity.
Defined.

Lemma extract_tei_doc_one_marker_witness :
  py_in (py "<body>") (py "<TEI>") = false
  ∧ py_in (py "<body>") (py "<p>A dog ran fast.</p></body></TEI>") = false
  ∧ extract_tei_doc sample_lower sample_is_word sample_is_space sample_sent_tokenize
      (py "<TEI>" ++ py "<body>" ++ py "<p>A dog ran fast.</p></body></TEI>")
    = Ok (clean_sentence sample_is_word sample_is_space
            <$> sample_sent_tokenize
                  (sample_lower
                     (remove_tags
                        (replace_char chr_newline chr_space
                           (py "<p>A dog ran fast.</p></body></TEI>"))))).
Proof.
  split; [reflexivity|]. split; [reflexivity|].
  apply (extract_tei_doc_one_marker sample_lower sample_is_word sample_is_space
           sample_sent_tokenize
           (py "<TEI>") (py "<p>A dog ran fast.</p></body></TEI>"));
    reflexivity.
Defined.

Lemma extract_tei_doc_with_marker_witness :
  py_in (py "<body>") (py "<TEI><body>one cat.<body>two dogs.</body></TEI>") = true
  ∧ ∃ sentences,
      extract_tei_doc sample_lower sample_is_word sample_is_space
        sample_sent_tokenize
        (py "<TEI><body>one cat.<body>two dogs.</body></TEI>")
      = Ok sentences.
Proof.
  split; [reflexivity|].
  apply (extract_tei_doc_with_marker sample_lower sample_is_word sample_is_space
           sample_sent_tokenize
           (py "<TEI><body>one cat.<body>two dogs.</body></TEI>")).
  reflexivity.
Defined.

Lemma format_line_inj_witness :
  (chr_tab ∉ py "cat") ∧ (chr_tab ∉ py "cat")
  ∧ format_line (py "cat") 2 = format_line (py "cat") 2
  ∧ py "cat" = py "cat" ∧ 2 = 2.
Proof.
  assert (chr_tab ∉ py "cat") as H.
  { apply (bool_decide_unpack _). vm_compute. exact I. }
  split; [exact H|]. split; [exact H|]. split; [reflexivity|].
  exact (format_line_inj (py "cat") (py "cat") 2 2 H H eq_refl).
Defined.

Lemma format_line_one_line_witness :
  (chr_newline ∉ py "cat")
  ∧ ∃ text, format_line (py "cat") 2 = text ++ [chr_newline]
            ∧ chr_newline ∉ text.
Proof.
  assert (chr_newline ∉ py "cat") as H.
  { apply (bool_decide_unpack _). vm_compute. exact I. }
  split; [exact H|]. exact (format_line_one_line (py "cat") 2 H).
Defined.

Lemma main_output_witness :
  main sample_lower sample_is_word sample_is_space sample_sent_tokenize
    sample_word_tokenize sample_read_text N sample_randbelow
    (py "corpus") (Some sample_root) 4%N
  = Ok (item_line <$> [(py "ran", 2); (py "the", 2); (py "cat", 2);
                       (py "dog", 1); (py "fast", 1); (py "sat", 1)])
  ∧ ∃ rows,
      item_line <$> [(py "ran", 2); (py "the", 2); (py "cat", 2);
                     (py "dog", 1); (py "fast", 1); (py "sat", 1)]
      = item_line <$> rows
      ∧ len (item_line <$> [(py "ran", 2); (py "the", 2); (py "cat", 2);
                            (py "dog", 1); (py "fast", 1); (py "sat", 1)])
        ≤ BOW_LENGTH
      ∧ non_increasing rows
      ∧ NoDup rows.*1
      ∧ Forall (λ p, 2 < len p.1 ∧ 1 ≤ p.2) rows.
Proof.
  split; [vm_compute; reflexivity|].
  apply (main_output sample_lower sample_is_word sample_is_space
           sample_sent_tokenize sample_word_tokenize sample_read_text
           N sample_randbelow (py "corpus") (Some sample_root) 4%N).
  vm_compute. reflexivity.
Defined.

Lemma sample_root_files :
  get_files (py "corpus") (Some sample_root)
  = [py "corpus/a.xml"; py "corpus/sub/b.xml"].
Proof. vm_compute. reflexivity. Qed.

Lemma sample_extraction_succeeds_witness :
  (∀ n g, (0 < n)%nat → ((sample_randbelow n g).1 < n)%nat)
  ∧ Forall (λ f, ∃ tei, sample_read_text f = Ok tei
                        ∧ py_in (py "<body>") tei = true)
      (get_files (py "corpus") (Some sample_root))
  ∧ ∃ picked flat_text,
      pick_random N sample_randbelow (get_files (py "corpus") (Some sample_root))
        DOCS_USED 4%N
      = Ok picked
      ∧ extract_tei sample_lower sample_is_word sample_is_space
          sample_sent_tokenize sample_read_text (returned picked)
        = Ok flat_text.
Proof.
  assert (Forall (λ f, ∃ tei, sample_read_text f = Ok tei
                              ∧ py_in (py "<body>") tei = true)
            (get_files (py "corpus") (Some sample_root))) as Hall.
  { rewrite sample_root_files.
    repeat constructor; eexists; (split; [vm_compute; reflexivity|]);
      vm_compute; reflexivity. }
  split; [exact sample_randbelow_lt|]. split; [exact Hall|].
  exact (sample_extraction_succeeds sample_lower sample_is_word sample_is_space
           sample_sent_tokenize sample_read_text
           N sample_randbelow sample_randbelow_lt
           (py "corpus") (Some sample_root) 4%N Hall).
Defined.

Lemma main_fails_on_missing_body_witness :
  (∀ n g, (0 < n)%nat → ((sample_randbelow n g).1 < n)%nat)
  ∧ len (get_files (py "corpus")
           (Some (Dir true [(py "a.xml", File); (py "nobody.xml", File)])))
    ≤ DOCS_USED
  ∧ py "corpus/nobody.xml"
    ∈ get_files (py "corpus")
        (Some (Dir true [(py "a.xml", File); (py "nobody.xml", File)]))
  ∧ sample_read_text (py "corpus/nobody.xml")
    = Ok (py "<TEI><text>no marker here</text></TEI>")
  ∧ py_in (py "<body>") (py "<TEI><text>no marker here</text></TEI>") = false
  ∧ ∀ lines,
      main sample_lower sample_is_word sample_is_space sample_sent_tokenize
        sample_word_tokenize sample_read_text N sample_randbelow
        (py "corpus")
        (Some (Dir true [(py "a.xml", File); (py "nobody.xml", File)])) 4%N
      ≠ Ok lines.
Proof.
  assert (get_files (py "corpus")
            (Some (Dir true [(py "a.xml", File); (py "nobody.xml", File)]))
          = [py "corpus/a.xml"; py "corpus/nobody.xml"]) as E.
  { vm_compute. reflexivity. }
  assert (py "corpus/nobody.xml"
          ∈ get_files (py "corpus")
              (Some (Dir true [(py "a.xml", File); (py "nobody.xml", File)])))
    as Hin.
  { rewrite E. right. left. }
  assert (len (get_files (py "corpus")
                 (Some (Dir true [(py "a.xml", File); (py "nobody.xml", File)])))
          ≤ DOCS_USED) as Hlen.
  { rewrite E. vm_compute. discriminate. }
  split; [exact sample_randbelow_lt|]. split; [exact Hlen|].
  split; [exact Hin|]. split; [reflexivity|]. split; [reflexivity|].
  exact (main_fails_on_missing_body sample_lower sample_is_word sample_is_space
           sample_sent_tokenize sample_word_tokenize sample_read_text
           N sample_randbelow sample_randbelow_lt (py "corpus")
           (Some (Dir true [(py "a.xml", File); (py "nobody.xml", File)])) 4%N
           (py "corpus/nobody.xml") (py "<TEI><text>no marker here</text></TEI>")
           Hlen Hin eq_refl eq_refl).
Defined.
